(** * rich_reporter: the Reporter facade over Python's [logging]

    A shallow embedding of [src/rich_reporter/__init__.py].

    The class [Reporter] keeps no logger of its own: it configures the
    logger that [logging.getLogger(name)] hands out, which is shared by
    every caller that asks for the same name.  The embedding therefore has
    two layers:

    - [Module logging]: the part of the standard [logging] module that the
      class drives (name-keyed registry, root logger, level gate, logger
      filters, handler fan-out with propagation to ancestor loggers);
    - the class itself, method by method, over a [World] that holds the
      registry, the heap of dict objects, the files and the console trace.

    Python objects that are mutated in place ([dict]s) live in [heap] and
    are referred to by location, so that aliasing and copying are visible.

    Left out: [Reporter.print] and [Reporter.exception], the rendering
    done by Rich, failures of the file system, and the parts of [logging]
    the class never touches ([disabled], [propagate], [logging.disable],
    custom level names).  The time stamp of a record is an argument of
    the call.  A file is named by the path string it was opened with:
    two spellings of one path are two files here, so statements about
    files either exclude every other file handler or speak of one path
    only.  The hierarchy of loggers is the documented one: the ancestors
    of a name are the existing loggers among its dotted prefixes, then
    the root (see [ancestors] for where CPython links fewer). *)

From Stdlib Require Import ZArith String Ascii List.
From stdpp Require Import base gmap strings list pretty.

Open Scope Z_scope.

(** ** Python values used by the class *)

(** An insertion-ordered [Dict[str, int]]. *)
Abbreviation Dict := (list (string * Z)).

Fixpoint dict_get (k : string) (d : Dict) : option Z :=
  match d with
  | [] => None
  | (k', v) :: d' => if String.eqb k k' then Some v else dict_get k d'
  end.

(** [d[k] = v]: an existing key keeps its position, a new key goes last. *)
Fixpoint dict_set (k : string) (v : Z) (d : Dict) : Dict :=
  match d with
  | [] => [(k, v)]
  | (k', v') :: d' =>
      if String.eqb k k' then (k', v) :: d' else (k', v') :: dict_set k v d'
  end.

Definition dict_values (d : Dict) : list Z := map snd d.

Fixpoint sum (l : list Z) : Z :=
  match l with
  | [] => 0
  | x :: l' => x + sum l'
  end.

(** [str.lower()] and [str.upper()] on ASCII. *)
Definition lower_ascii (c : ascii) : ascii :=
  let n := nat_of_ascii c in
  if (Nat.leb 65 n && Nat.leb n 90)%bool then ascii_of_nat (n + 32) else c.

Definition upper_ascii (c : ascii) : ascii :=
  let n := nat_of_ascii c in
  if (Nat.leb 97 n && Nat.leb n 122)%bool then ascii_of_nat (n - 32) else c.

Fixpoint lower (s : string) : string :=
  match s with
  | EmptyString => EmptyString
  | String c s' => String (lower_ascii c) (lower s')
  end.

Fixpoint upper (s : string) : string :=
  match s with
  | EmptyString => EmptyString
  | String c s' => String (upper_ascii c) (upper s')
  end.

(** An exception instance: its class and its message. *)
Record Exn := { exc_type : string; exc_msg : string }.

Definition ValueError (msg : string) : Exn :=
  {| exc_type := "ValueError"; exc_msg := msg |}.

(** What a method hands back that the [with] statement tests for truth. *)
Inductive PyValue :=
  | PyNone
  | PyBool (b : bool).

Definition truthy (v : PyValue) : bool :=
  match v with
  | PyNone => false
  | PyBool b => b
  end.

(** ** Objects *)

(** Dict objects are referred to by heap location, loggers by the name
    under which the registry holds them. *)
Abbreviation loc := nat (only parsing).
Abbreviation LoggerRef := string (only parsing).

(** A [Reporter] instance.  Its attributes are bound once in [__init__];
    the mutable part is the dict that [_stats] points to and the logger
    that [logger] names. *)
Record Reporter := {
  name : string;
  console : nat;
  logger : LoggerRef;
  _stats : loc;
}.

#[global] Instance Reporter_eq_dec : EqDecision Reporter.
Proof. solve_decision. Defined.

Module logging.

(** Numeric levels of the standard module. *)
Definition NOTSET : Z := 0.
Definition DEBUG : Z := 10.
Definition INFO : Z := 20.
Definition WARNING : Z := 30.
Definition ERROR : Z := 40.
Definition CRITICAL : Z := 50.

(** [logging.getLevelName] with the default level table. *)
Definition getLevelName (level : Z) : string :=
  if level =? 50 then "CRITICAL"
  else if level =? 40 then "ERROR"
  else if level =? 30 then "WARNING"
  else if level =? 20 then "INFO"
  else if level =? 10 then "DEBUG"
  else if level =? 0 then "NOTSET"
  else "Level " +:+ pretty level.

(** The attributes of a [LogRecord] that the class and its formatters
    read.  [asctime] is the rendering of the creation time, which the
    environment supplies with each call. *)
Record LogRecord := {
  rec_name : string;
  levelno : Z;
  levelname : string;
  message : string;
  asctime : string;
}.

(** The two handlers the class attaches, each with its own threshold. *)
Inductive Handler :=
  | RichHandler (console : nat) (show_time show_path : bool) (level : Z)
  | FileHandler (path : string) (level : Z).

Definition handler_level (h : Handler) : Z :=
  match h with
  | RichHandler _ _ _ l => l
  | FileHandler _ l => l
  end.

(** A logger.  A filter of a logger is the bound method
    [_count_log_event] of some Reporter, recorded as that Reporter. *)
Record Logger := {
  lname : string;
  level : Z;
  handlers : list Handler;
  filters : list Reporter;
}.

(** [Logger(name)]: level NOTSET, nothing attached. *)
Definition new_logger (n : string) : Logger :=
  {| lname := n; level := NOTSET; handlers := []; filters := [] |}.

(** The root logger as the module creates it: level WARNING. *)
Definition RootLogger : Logger :=
  {| lname := "root"; level := WARNING; handlers := []; filters := [] |}.

End logging.

Import logging.

(** What reaches the outside: a record rendered on a console, a panel
    printed on a console, a line on standard error. *)
Inductive Event :=
  | ELog (console : nat) (r : LogRecord)
  | EPanel (console : nat) (title : string) (rows : list (string * string))
  | EStderr (line : string).

(** ** The world *)

Record World := {
  root : Logger;
  loggerDict : gmap string Logger;
  heap : list Dict;
  consoles : nat;
  files : gmap string string;
  out : list Event;
}.

Definition initial_world : World :=
  {| root := RootLogger; loggerDict := ∅; heap := []; consoles := 0;
     files := ∅; out := [] |}.

Definition set_root (lg : Logger) (w : World) : World :=
  {| root := lg; loggerDict := loggerDict w; heap := heap w;
     consoles := consoles w; files := files w; out := out w |}.

Definition set_loggerDict (d : gmap string Logger) (w : World) : World :=
  {| root := root w; loggerDict := d; heap := heap w;
     consoles := consoles w; files := files w; out := out w |}.

Definition set_heap (h : list Dict) (w : World) : World :=
  {| root := root w; loggerDict := loggerDict w; heap := h;
     consoles := consoles w; files := files w; out := out w |}.

Definition set_consoles (n : nat) (w : World) : World :=
  {| root := root w; loggerDict := loggerDict w; heap := heap w;
     consoles := n; files := files w; out := out w |}.

Definition set_files (f : gmap string string) (w : World) : World :=
  {| root := root w; loggerDict := loggerDict w; heap := heap w;
     consoles := consoles w; files := f; out := out w |}.

Definition set_out (o : list Event) (w : World) : World :=
  {| root := root w; loggerDict := loggerDict w; heap := heap w;
     consoles := consoles w; files := files w; out := o |}.

(** ** Computations: state and exceptions *)

Inductive Result (A : Type) :=
  | Ok (a : A)
  | Raise (e : Exn).
Arguments Ok {A} a.
Arguments Raise {A} e.

Definition M (A : Type) : Type := World → Result A * World.

Definition ret {A} (a : A) : M A := λ w, (Ok a, w).

Definition bind {A B} (c : M A) (k : A → M B) : M B :=
  λ w, match c w with
       | (Ok a, w') => k a w'
       | (Raise e, w') => (Raise e, w')
       end.

Definition raise {A} (e : Exn) : M A := λ w, (Raise e, w).

Definition modify (f : World → World) : M unit := λ w, (Ok tt, f w).

Definition gets {A} (f : World → A) : M A := λ w, (Ok (f w), w).

Notation "'do' x <- c ; k" := (bind c (λ x, k))
  (at level 10, x name, c at level 100, k at level 200).
Notation "'do'' c ; k" := (bind c (λ _, k))
  (at level 10, c at level 100, k at level 200).

(** ** Heap, consoles and files *)

(** A new dict object with the given contents; its location is returned. *)
Definition new_dict (d : Dict) : M loc :=
  λ w, (Ok (length (heap w)), set_heap (heap w ++ [d]) w).

(** [Console()]: a console nobody else holds. *)
Definition Console : M nat :=
  λ w, (Ok (consoles w), set_consoles (S (consoles w)) w).

(** The line terminator of a stream handler. *)
Definition terminator : string := String "010"%char EmptyString.

(** Opening a path in append mode: an absent file is created empty, an
    existing one keeps its contents. *)
Definition open_append (path : string) : M unit :=
  modify (λ w, match files w !! path with
               | Some _ => w
               | None => set_files (<[path := ""]> (files w)) w
               end).

(** [stream.write(s)] on a stream opened in append mode. *)
Definition write_append (path : string) (s : string) (w : World) : World :=
  set_files (<[path := default "" (files w !! path) +:+ s]> (files w)) w.

(** ** The registry of loggers *)

(** [logging.getLogger] hands out the root logger for the empty name and
    for the root's own name. *)
Definition is_root_name (n : string) : bool :=
  (String.eqb n "" || String.eqb n "root")%bool.

Definition lookup_logger (h : LoggerRef) (w : World) : option Logger :=
  if String.eqb h "root" then Some (root w) else loggerDict w !! h.

Definition the_logger (h : LoggerRef) (w : World) : Logger :=
  default (new_logger h) (lookup_logger h w).

Definition put_logger (h : LoggerRef) (lg : Logger) (w : World) : World :=
  if String.eqb h "root" then set_root lg w
  else set_loggerDict (<[h := lg]> (loggerDict w)) w.

(** Assigning to the attributes of the logger object that [h] names. *)
Definition update_logger (h : LoggerRef) (f : Logger → Logger) (w : World)
    : World :=
  put_logger h (f (the_logger h w)) w.

Definition getLogger (n : string) : M LoggerRef :=
  λ w, if is_root_name n then (Ok "root", w)
       else match loggerDict w !! n with
            | Some _ => (Ok n, w)
            | None =>
                (Ok n, set_loggerDict (<[n := new_logger n]> (loggerDict w)) w)
            end.

(** The dotted hierarchy: the proper prefixes of a name that end just
    before a dot, the longest first. *)
Fixpoint dotted_prefixes_below (s : string) (n : nat) : list string :=
  match n with
  | O => []
  | S n' =>
      match String.get n s with
      | Some "."%char => substring 0 n s :: dotted_prefixes_below s n'
      | _ => dotted_prefixes_below s n'
      end
  end.

Definition dotted_prefixes (s : string) : list string :=
  dotted_prefixes_below s (String.length s - 1).

(** The loggers a record propagates to after its own, as the
    documentation of [logging] has it: the existing loggers among the
    dotted prefixes, nearest first, then the root.

    CPython fixes the parent of a logger when loggers are created, and in
    two corners it links a logger to the root although a logger exists at
    a dotted prefix: for a name with two dots in a row, and for a child
    created before a parent whose name is a prefix of "root".  There this
    list holds more loggers than the real parent chain; it never holds
    fewer, and for a name without a dot it is the real chain.  The
    properties below that depend on the hierarchy therefore assume
    something of every logger in this list, or are about names without a
    dot, or are about a logger with a level of its own, where the
    hierarchy is not consulted. *)
Definition ancestors (h : LoggerRef) (w : World) : list Logger :=
  if String.eqb h "root" then []
  else omap (λ p, loggerDict w !! p) (dotted_prefixes h) ++ [root w].

(** ** The counting filter of the class *)

(** [Reporter._count_log_event]: bump the counter of the record's level
    when that level is a key of [_stats]; always let the record pass. *)
Definition _count_log_event (self : Reporter) (record : LogRecord) : M bool :=
  λ w,
    let level_name := lower (levelname record) in
    match heap w !! _stats self with
    | Some d =>
        match dict_get level_name d with
        | Some v =>
            (Ok true,
             set_heap (<[_stats self := dict_set level_name (v + 1) d]> (heap w)) w)
        | None => (Ok true, w)
        end
    | None => (Ok true, w)
    end.

(** ** Methods of [logging.Logger] *)

Module Logger.

Definition setLevel (h : LoggerRef) (lv : Z) : M unit :=
  modify (update_logger h (λ lg,
    {| lname := lname lg; level := lv;
       handlers := handlers lg; filters := filters lg |})).

(** [self.logger.handlers.clear()] *)
Definition handlers_clear (h : LoggerRef) : M unit :=
  modify (update_logger h (λ lg,
    {| lname := lname lg; level := level lg;
       handlers := []; filters := filters lg |})).

(** [addHandler] of a handler object that was just created. *)
Definition addHandler (h : LoggerRef) (hdlr : Handler) : M unit :=
  modify (update_logger h (λ lg,
    {| lname := lname lg; level := level lg;
       handlers := handlers lg ++ [hdlr]; filters := filters lg |})).

(** [addFilter]: appended unless already present. *)
Definition addFilter (h : LoggerRef) (f : Reporter) : M unit :=
  modify (update_logger h (λ lg,
    {| lname := lname lg; level := level lg;
       handlers := handlers lg;
       filters := if bool_decide (f ∈ filters lg)
                  then filters lg else filters lg ++ [f] |})).

(** The first level that is set, from the logger up to the root. *)
Fixpoint first_level (ls : list Logger) : Z :=
  match ls with
  | [] => NOTSET
  | lg :: ls' => if level lg =? 0 then first_level ls' else level lg
  end.

Definition getEffectiveLevel (h : LoggerRef) (w : World) : Z :=
  first_level (the_logger h w :: ancestors h w).

(** [isEnabledFor], with the module-wide [disable] threshold at its
    default of 0. *)
Definition isEnabledFor (h : LoggerRef) (lv : Z) (w : World) : bool :=
  if 0 >=? lv then false else lv >=? getEffectiveLevel h w.

(** [Filterer.filter]: the filters in order, stopping at the first one
    that refuses the record. *)
Fixpoint filter (fs : list Reporter) (record : LogRecord) : M bool :=
  match fs with
  | [] => ret true
  | f :: fs' =>
      do ok <- _count_log_event f record;
      if ok then filter fs' record else ret false
  end.

(** The file formatter
    ["%(asctime)s - %(name)s - %(levelname)s - %(message)s"]. *)
Definition format_file (r : LogRecord) : string :=
  asctime r +:+ " - " +:+ rec_name r +:+ " - " +:+ levelname r
    +:+ " - " +:+ message r.

Definition emit (hdlr : Handler) (r : LogRecord) (w : World) : World :=
  match hdlr with
  | RichHandler c _ _ _ => set_out (out w ++ [ELog c r]) w
  | FileHandler p _ => write_append p (format_file r +:+ terminator) w
  end.

Fixpoint handle_each (hs : list Handler) (r : LogRecord) (w : World) : World :=
  match hs with
  | [] => w
  | hdlr :: hs' =>
      handle_each hs' r
        (if levelno r >=? handler_level hdlr then emit hdlr r w else w)
  end.

(** [callHandlers]: the handlers of the logger and of its ancestors; with
    no handler at all, the last-resort handler writes warnings and above
    to standard error. *)
Definition callHandlers (h : LoggerRef) (r : LogRecord) : M unit :=
  modify (λ w,
    let hs := concat (map handlers (the_logger h w :: ancestors h w)) in
    let w' := handle_each hs r w in
    match hs with
    | [] => if levelno r >=? WARNING
            then set_out (out w' ++ [EStderr (message r)]) w' else w'
    | _ :: _ => w'
    end).

Definition handle (h : LoggerRef) (r : LogRecord) : M unit :=
  do fs <- gets (λ w, filters (the_logger h w));
  do ok <- filter fs r;
  if ok then callHandlers h r else ret tt.

Definition makeRecord (h : LoggerRef) (lv : Z) (msg time : string) (w : World)
  : LogRecord :=
  {| rec_name := lname (the_logger h w); levelno := lv;
     levelname := getLevelName lv; message := msg; asctime := time |}.

Definition _log (h : LoggerRef) (lv : Z) (msg time : string) : M unit :=
  do r <- gets (makeRecord h lv msg time);
  handle h r.

(** [Logger.log(level, msg)] and its five fixed-level forms. *)
Definition log (h : LoggerRef) (lv : Z) (msg time : string) : M unit :=
  do enabled <- gets (isEnabledFor h lv);
  if enabled then _log h lv msg time else ret tt.

Definition debug (h : LoggerRef) := log h DEBUG.
Definition info (h : LoggerRef) := log h INFO.
Definition warning (h : LoggerRef) := log h WARNING.
Definition error (h : LoggerRef) := log h ERROR.
Definition critical (h : LoggerRef) := log h CRITICAL.

End Logger.

(** ** The class [Reporter] *)

(** The counters a Reporter starts with. *)
Definition initial_stats : Dict :=
  [("debug", 0); ("info", 0); ("warning", 0); ("error", 0); ("critical", 0)].

(** [not file_path] for an [Optional[str]]. *)
Definition falsy_path (file_path : option string) : bool :=
  match file_path with
  | None => true
  | Some p => String.eqb p ""
  end.

Definition __init__ (name : string) (level : Z) (console : option nat)
    (show_time show_path enable_file_handler : bool)
    (file_path : option string) : M Reporter :=
  do c <- match console with Some c => ret c | None => Console end;
  do stats <- new_dict initial_stats;
  do lg <- getLogger name;
  let self := {| name := name; console := c; logger := lg; _stats := stats |} in
  do' Logger.setLevel lg level;
  do' Logger.handlers_clear lg;
  do' Logger.addHandler lg (RichHandler c show_time show_path level);
  do' (if enable_file_handler then
         if falsy_path file_path then
           raise (ValueError
                    "file_path must be provided when enable_file_handler=True")
         else
           let path := default "" file_path in
           do' open_append path;
           Logger.addHandler lg (FileHandler path level)
       else ret tt);
  do' Logger.addFilter lg self;
  ret self.

Definition debug (self : Reporter) (message time : string) : M unit :=
  Logger.debug (logger self) message time.

Definition info (self : Reporter) (message time : string) : M unit :=
  Logger.info (logger self) message time.

Definition warning (self : Reporter) (message time : string) : M unit :=
  Logger.warning (logger self) message time.

Definition error (self : Reporter) (message time : string) : M unit :=
  Logger.error (logger self) message time.

Definition critical (self : Reporter) (message time : string) : M unit :=
  Logger.critical (logger self) message time.

(** [self._stats.copy()]: a new dict object with the same items. *)
Definition get_stats (self : Reporter) : M loc :=
  do d <- gets (λ w, default [] (heap w !! _stats self));
  new_dict d.

Definition count_style (level : string) : string :=
  if (String.eqb level "error" || String.eqb level "critical")%bool
  then "bold red"
  else if String.eqb level "warning" then "bold yellow"
  else "green".

(** One table row per item of [_stats], in the order of the dict. *)
Definition table_rows (d : Dict) : list (string * string) :=
  map (λ '(level, count),
         (upper level,
          "[" +:+ count_style level +:+ "]" +:+ pretty count
              +:+ "[/" +:+ count_style level +:+ "]")) d.

Definition report (self : Reporter) (title : string) : M loc :=
  do d <- gets (λ w, default [] (heap w !! _stats self));
  do' modify (λ w,
        set_out (out w ++ [EPanel (console self)
                             ("[bold blue]" +:+ title +:+ "[/bold blue]")
                             (table_rows d)]) w);
  get_stats self.

Definition default_title : string := "Report Summary".

Definition __enter__ (self : Reporter) : M Reporter := ret self.

Definition __exit__ (self : Reporter) (exc : option Exn) : M PyValue :=
  do _ <- report self default_title;
  ret PyNone.

Definition get_reporter := __init__.

(** ** The [with] statement

    [with mgr as target: body].  An exception of the body is handed to
    [__exit__] and raised again unless [__exit__] returns a true value. *)
Definition with_ (mgr : Reporter) (body : Reporter → M unit) : M unit :=
  do target <- __enter__ mgr;
  λ w, match body target w with
       | (Ok _, w1) => (do' __exit__ mgr None; ret tt) w1
       | (Raise e, w1) =>
           (do suppress <- __exit__ mgr (Some e);
            if truthy suppress then ret tt else raise e) w1
       end.

(** ** Callers *)

(** The five levels a Reporter method can submit. *)
Inductive Level := LDebug | LInfo | LWarning | LError | LCritical.

Definition rank (l : Level) : Z :=
  match l with
  | LDebug => DEBUG
  | LInfo => INFO
  | LWarning => WARNING
  | LError => ERROR
  | LCritical => CRITICAL
  end.

(** The key of a level in [_stats]. *)
Definition stat_key (l : Level) : string :=
  match l with
  | LDebug => "debug"
  | LInfo => "info"
  | LWarning => "warning"
  | LError => "error"
  | LCritical => "critical"
  end.

(** One leveled call: which method, with which message, at which time. *)
Record Call := { call_level : Level; call_message : string; call_time : string }.

Definition submit (self : Reporter) (c : Call) : M unit :=
  match call_level c with
  | LDebug => debug self (call_message c) (call_time c)
  | LInfo => info self (call_message c) (call_time c)
  | LWarning => warning self (call_message c) (call_time c)
  | LError => error self (call_message c) (call_time c)
  | LCritical => critical self (call_message c) (call_time c)
  end.

(** A sequence of leveled calls on one Reporter, in order. *)
Fixpoint submit_all (self : Reporter) (cs : list Call) : M unit :=
  match cs with
  | [] => ret tt
  | c :: cs' => do' submit self c; submit_all self cs'
  end.

(** A caller changing a dict object it holds, in any way. *)
Definition mutate (l : loc) (f : Dict → Dict) : M unit :=
  modify (λ w, match heap w !! l with
               | Some d => set_heap (<[l := f d]> (heap w)) w
               | None => w
               end).

(** The state of the world after a computation, and its outcome. *)
Definition exec {A} (c : M A) (w : World) : World := snd (c w).
Definition outcome {A} (c : M A) (w : World) : Result A := fst (c w).


(** The mapping that [get_stats] returns in a given world. *)
Definition snapshot (self : Reporter) (w : World) : option Dict :=
  match get_stats self w with
  | (Ok l, w') => heap w' !! l
  | (Raise _, _) => None
  end.

(** The panel that [report] prints for a Reporter with the given counters. *)
Definition summary_panel (self : Reporter) (title : string) (d : Dict) : Event :=
  EPanel (console self) ("[bold blue]" +:+ title +:+ "[/bold blue]")
    (table_rows d).

(** The counters of a Reporter as they stand. *)
Definition stats_of (self : Reporter) (w : World) : Dict :=
  default [] (heap w !! _stats self).

(** ** Auxiliary definitions for the statements *)

(** The effect of one counting filter on the heap. *)
Definition count_event (self : Reporter) (record : LogRecord)
    (hp : list Dict) : list Dict :=
  match hp !! _stats self with
  | Some d =>
      match dict_get (lower (levelname record)) d with
      | Some v =>
          <[_stats self := dict_set (lower (levelname record)) (v + 1) d]> hp
      | None => hp
      end
  | None => hp
  end.

(** The effect of a list of counting filters, in order. *)
Definition count_events (fs : list Reporter) (record : LogRecord)
    (hp : list Dict) : list Dict :=
  fold_left (λ hp f, count_event f record hp) fs hp.

(** The logger that [logging.getLogger] hands out for a name. *)
Definition canon (n : string) : LoggerRef :=
  if is_root_name n then "root" else n.

(** The Reporter that [__init__] builds in a given world. *)
Definition init_console (con : option nat) (w : World) : nat :=
  match con with Some c => c | None => consoles w end.

Definition init_self (n : string) (con : option nat) (w : World) : Reporter :=
  {| name := n; console := init_console con w; logger := canon n;
     _stats := length (heap w) |}.

(** The logger of a new Reporter once [__init__] is through with it, from
    the logger as it stood. *)
Definition init_logger (lv : Z) (c : nat) (st sp efh : bool)
    (fp : option string) (self : Reporter) (old : Logger) : Logger :=
  {| lname := lname old; level := lv;
     handlers :=
       RichHandler c st sp lv
         :: (if (efh && negb (falsy_path fp))%bool
             then [FileHandler (default "" fp) lv] else []);
     filters :=
       if (efh && falsy_path fp)%bool then filters old
       else if bool_decide (self ∈ filters old) then filters old
            else filters old ++ [self] |}.

(** A Reporter whose counting filter is attached to some logger. *)
Definition registered (f : Reporter) (w : World) : Prop :=
  ∃ h lg, lookup_logger h w = Some lg ∧ f ∈ filters lg.

#[global] Instance Level_eq_dec : EqDecision Level.
Proof. solve_decision. Defined.

(** The dict with the five keys in the order of [__init__] and the given
    counts. *)
Definition stats_dict (cnt : Level → Z) : Dict :=
  [("debug", cnt LDebug); ("info", cnt LInfo); ("warning", cnt LWarning);
   ("error", cnt LError); ("critical", cnt LCritical)].

(** Well-formed worlds: a logger is registered under its own name; every
    attached counting filter belongs to a Reporter whose dict is allocated
    and has the five keys, sits on that Reporter's own logger, and no two
    attached Reporters share a dict. *)
Record wf (w : World) : Prop := {
  wf_name : ∀ h lg, lookup_logger h w = Some lg → lname lg = h;
  wf_dict : ∀ h lg f,
    lookup_logger h w = Some lg → f ∈ filters lg →
    ∃ cnt, heap w !! _stats f = Some (stats_dict cnt);
  wf_home : ∀ h lg f,
    lookup_logger h w = Some lg → f ∈ filters lg → logger f = h;
  wf_inj : ∀ f g,
    registered f w → registered g w → _stats f = _stats g → f = g;
}.

(** A call is admitted by a Reporter of minimum level [m] when its rank is
    at least [m]. *)
Definition admitted (m : Z) (c : Call) : bool := rank (call_level c) >=? m.

(** The number of calls at level [L] among the admitted ones. *)
Definition count_level (m : Z) (L : Level) (cs : list Call) : Z :=
  Z.of_nat (length (List.filter
                      (λ c, admitted m c && bool_decide (call_level c = L))%bool
                      cs)).

(** The number of admitted calls. *)
Definition count_admitted (m : Z) (cs : list Call) : Z :=
  Z.of_nat (length (List.filter (admitted m) cs)).

(** One more at level [L]. *)
Definition bump (cnt : Level → Z) (L : Level) : Level → Z :=
  λ L', if bool_decide (L' = L) then cnt L' + 1 else cnt L'.

(** The counts after a sequence of calls, call by call. *)
Fixpoint tally (m : Z) (cnt : Level → Z) (cs : list Call) : Level → Z :=
  match cs with
  | [] => cnt
  | c :: cs' =>
      tally m (if admitted m c then bump cnt (call_level c) else cnt) cs'
  end.

(** What a program can do to the world through the class: construct a
    Reporter, log through a Reporter or through its logger, take a
    snapshot, print a report. *)
Inductive step : World → World → Prop :=
  | step_init n lv con st sp efh fp w :
      step w (exec (__init__ n lv con st sp efh fp) w)
  | step_submit self c w :
      step w (exec (submit self c) w)
  | step_log h lv msg t w :
      step w (exec (Logger.log h lv msg t) w)
  | step_get_stats self w :
      step w (exec (get_stats self) w)
  | step_report self title w :
      step w (exec (report self title) w).

(** The worlds a program reaches from a fresh interpreter. *)
Inductive reachable : World → Prop :=
  | reachable_initial : reachable initial_world
  | reachable_step w w' : reachable w → step w w' → reachable w'.

(** The line that the file handler writes for a call, under the name of
    the logger that handled it. *)
Definition file_line (logger_name : string) (c : Call) : string :=
  (call_time c +:+ " - " +:+ logger_name +:+ " - "
     +:+ upper (stat_key (call_level c)) +:+ " - " +:+ call_message c)
    +:+ terminator.

(** The contents of the destination after a sequence of calls: one line
    appended per admitted call, in order. *)
Definition persisted (m : Z) (logger_name : string) (prior : string)
    (cs : list Call) : string :=
  fold_left (λ acc c, if admitted m c then acc +:+ file_line logger_name c
                      else acc) cs prior.

(** The number of line breaks in a string: line feeds and carriage
    returns. *)
Fixpoint line_breaks (s : string) : nat :=
  match s with
  | EmptyString => 0%nat
  | String c s' =>
      ((if (Ascii.eqb c "010" || Ascii.eqb c "013")%bool then 1 else 0)
       + line_breaks s')%nat
  end.

(** Whether a name has a dot in it. *)
Fixpoint contains_dot (s : string) : bool :=
  match s with
  | EmptyString => false
  | String c s' => (Ascii.eqb c "." || contains_dot s')%bool
  end.

(** The level of the five that a numeric level stands for, if any. *)
Definition level_of_rank (lv : Z) : option Level :=
  if lv =? 10 then Some LDebug
  else if lv =? 20 then Some LInfo
  else if lv =? 30 then Some LWarning
  else if lv =? 40 then Some LError
  else if lv =? 50 then Some LCritical
  else None.

(** Worlds in good order: well-formed, no logger carries the same
    counting filter twice, and no counter of an attached Reporter is
    negative. *)
Record tidy (w : World) : Prop := {
  tidy_wf : wf w;
  tidy_nodup : ∀ h lg, lookup_logger h w = Some lg → NoDup (filters lg);
  tidy_nonneg : ∀ f cnt,
    registered f w → heap w !! _stats f = Some (stats_dict cnt) →
    ∀ L, 0 ≤ cnt L;
}.

(** What a list of handlers puts on the consoles for one record. *)
Definition console_events (hs : list Handler) (r : LogRecord) : list Event :=
  flat_map (λ hdlr,
              match hdlr with
              | RichHandler c _ _ lv =>
                  if levelno r >=? lv then [ELog c r] else []
              | FileHandler _ _ => []
              end) hs.

(** The record that a leveled call creates on a logger of the given
    name. *)
Definition call_record (logger_name : string) (c : Call) : LogRecord :=
  {| rec_name := logger_name; levelno := rank (call_level c);
     levelname := upper (stat_key (call_level c));
     message := call_message c; asctime := call_time c |}.

(** * Properties *)

(** ** Worlds and setters *)

Arguments put_logger : simpl never.
Arguments the_logger : simpl never.
Arguments update_logger : simpl never.
Arguments getLogger : simpl never.
Arguments open_append : simpl never.

Lemma set_heap_id w : set_heap (heap w) w = w.
Proof. by destruct w. Qed.

Lemma lookup_logger_put_eq h lg w :
  lookup_logger h (put_logger h lg w) = Some lg.
Proof.
  unfold lookup_logger, put_logger.
  destruct (String.eqb h "root") eqn:E; simpl; [done|].
  apply lookup_insert_eq.
Qed.

Lemma lookup_logger_put_ne h h' lg w :
  h ≠ h' → lookup_logger h' (put_logger h lg w) = lookup_logger h' w.
Proof.
  intros Hne. unfold lookup_logger, put_logger.
  destruct (String.eqb h "root") eqn:E, (String.eqb h' "root") eqn:E'; simpl;
    try done.
  - apply String.eqb_eq in E, E'. congruence.
  - by apply lookup_insert_ne.
Qed.

Lemma the_logger_put_eq h lg w : the_logger h (put_logger h lg w) = lg.
Proof. unfold the_logger. by rewrite lookup_logger_put_eq. Qed.

Lemma heap_put_logger h lg w : heap (put_logger h lg w) = heap w.
Proof. unfold put_logger. by destruct (String.eqb h "root"). Qed.

Lemma files_put_logger h lg w : files (put_logger h lg w) = files w.
Proof. unfold put_logger. by destruct (String.eqb h "root"). Qed.

Lemma out_put_logger h lg w : out (put_logger h lg w) = out w.
Proof. unfold put_logger. by destruct (String.eqb h "root"). Qed.

(** ** The counting filters *)

Lemma _count_log_event_spec self r w :
  _count_log_event self r w
  = (Ok true, set_heap (count_event self r (heap w)) w).
Proof.
  unfold _count_log_event, count_event.
  destruct (heap w !! _stats self) as [d|]; [|by rewrite set_heap_id].
  destruct (dict_get _ d); [done|by rewrite set_heap_id].
Qed.

Lemma filter_spec fs r w :
  Logger.filter fs r w = (Ok true, set_heap (count_events fs r (heap w)) w).
Proof.
  revert w. induction fs as [|f fs IH]; intros w; simpl.
  - unfold ret. by rewrite set_heap_id.
  - unfold bind. rewrite _count_log_event_spec, IH. by destruct w.
Qed.

Lemma count_event_length f r hp : length (count_event f r hp) = length hp.
Proof.
  unfold count_event. destruct (hp !! _stats f); [|done].
  destruct (dict_get _ _); [|done]. apply length_insert.
Qed.

Lemma count_events_length fs r hp : length (count_events fs r hp) = length hp.
Proof.
  revert hp. induction fs as [|f fs IH]; intros hp; simpl; [done|].
  unfold count_events in *. simpl. by rewrite IH, count_event_length.
Qed.

Lemma count_event_other f r hp (l : loc) :
  _stats f ≠ l → count_event f r hp !! l = hp !! l.
Proof.
  intros Hne. unfold count_event. destruct (hp !! _stats f); [|done].
  destruct (dict_get _ _); [|done]. by apply list_lookup_insert_ne.
Qed.

Lemma count_events_other fs r hp (l : loc) :
  (∀ f, f ∈ fs → _stats f ≠ l) → count_events fs r hp !! l = hp !! l.
Proof.
  revert hp. induction fs as [|f fs IH]; intros hp Hfs; [done|].
  unfold count_events in *. simpl. rewrite IH.
  - apply count_event_other, Hfs. left.
  - intros g Hg. apply Hfs. by right.
Qed.

Lemma count_events_app fs gs r hp :
  count_events (fs ++ gs) r hp = count_events gs r (count_events fs r hp).
Proof. unfold count_events. apply fold_left_app. Qed.

(** ** Delivery to handlers *)

Lemma emit_frame hdlr r w :
  root (Logger.emit hdlr r w) = root w
  ∧ loggerDict (Logger.emit hdlr r w) = loggerDict w
  ∧ heap (Logger.emit hdlr r w) = heap w
  ∧ consoles (Logger.emit hdlr r w) = consoles w.
Proof. by destruct hdlr. Qed.

Lemma handle_each_frame hs r w :
  root (Logger.handle_each hs r w) = root w
  ∧ loggerDict (Logger.handle_each hs r w) = loggerDict w
  ∧ heap (Logger.handle_each hs r w) = heap w
  ∧ consoles (Logger.handle_each hs r w) = consoles w.
Proof.
  revert w. induction hs as [|hdlr hs IH]; intros w; simpl; [done|].
  destruct (IH (if levelno r >=? handler_level hdlr
                then Logger.emit hdlr r w else w)) as (-> & -> & -> & ->).
  destruct (levelno r >=? handler_level hdlr); [apply emit_frame|done].
Qed.

Lemma callHandlers_frame h r w :
  root (exec (Logger.callHandlers h r) w) = root w
  ∧ loggerDict (exec (Logger.callHandlers h r) w) = loggerDict w
  ∧ heap (exec (Logger.callHandlers h r) w) = heap w
  ∧ consoles (exec (Logger.callHandlers h r) w) = consoles w.
Proof.
  unfold exec, Logger.callHandlers, modify. simpl.
  set (hs := handlers (the_logger h w) ++ _).
  pose proof (handle_each_frame hs r w) as (? & ? & ? & ?).
  destruct hs; [destruct (levelno r >=? WARNING)|]; simpl; done.
Qed.

(** ** One logging call *)

(** A call on a logger never raises; below the gate it does nothing, above
    it the filters count and the handlers are called. *)
Lemma log_spec h lv msg t w :
  Logger.log h lv msg t w
  = (Ok tt,
     if Logger.isEnabledFor h lv w then
       exec (Logger.callHandlers h (Logger.makeRecord h lv msg t w))
            (set_heap (count_events (filters (the_logger h w))
                         (Logger.makeRecord h lv msg t w) (heap w)) w)
     else w).
Proof.
  unfold Logger.log, bind, gets.
  destruct (Logger.isEnabledFor h lv w); [|done].
  unfold Logger._log, Logger.handle, bind, gets.
  by rewrite filter_spec.
Qed.

Lemma submit_log self c :
  submit self c
  = Logger.log (logger self) (rank (call_level c)) (call_message c) (call_time c).
Proof. unfold submit. by destruct (call_level c). Qed.

Lemma log_frame h lv msg t w :
  root (exec (Logger.log h lv msg t) w) = root w
  ∧ loggerDict (exec (Logger.log h lv msg t) w) = loggerDict w
  ∧ length (heap (exec (Logger.log h lv msg t) w)) = length (heap w)
  ∧ consoles (exec (Logger.log h lv msg t) w) = consoles w.
Proof.
  unfold exec at 1 2 3 4. rewrite log_spec. simpl.
  destruct (Logger.isEnabledFor h lv w); [|done].
  match goal with |- context [exec (Logger.callHandlers ?a ?b) ?c] =>
    destruct (callHandlers_frame a b c) as (-> & -> & -> & ->) end.
  simpl. by rewrite count_events_length.
Qed.

(** ** Construction *)

Lemma getLogger_outcome n w : outcome (getLogger n) w = Ok (canon n).
Proof.
  unfold outcome, getLogger, canon. destruct (is_root_name n); [done|].
  by destruct (loggerDict w !! n).
Qed.

Lemma canon_root n : is_root_name n = false → String.eqb (canon n) "root" = false.
Proof.
  unfold canon. intros E. rewrite E. unfold is_root_name in E.
  by apply orb_false_elim in E as [_ ?].
Qed.

Lemma getLogger_lookup n w :
  lookup_logger (canon n) (exec (getLogger n) w)
  = Some (the_logger (canon n) w).
Proof.
  unfold exec, getLogger, the_logger, lookup_logger.
  destruct (is_root_name n) eqn:E.
  - unfold canon. by rewrite E.
  - rewrite (canon_root _ E).
    replace (canon n) with n by (unfold canon; by rewrite E).
    destruct (loggerDict w !! n) eqn:El; [exact El|].
    exact (lookup_insert_eq (loggerDict w) n (new_logger n)).
Qed.

Lemma getLogger_lookup_other n h w :
  h ≠ canon n →
  lookup_logger h (exec (getLogger n) w) = lookup_logger h w.
Proof.
  unfold exec, getLogger, lookup_logger, canon. intros Hne.
  destruct (is_root_name n) eqn:E; [done|].
  destruct (loggerDict w !! n) eqn:El; [done|].
  destruct (String.eqb h "root"); [done|].
  exact (lookup_insert_ne (loggerDict w) n h (new_logger n) (not_eq_sym Hne)).
Qed.

Lemma getLogger_frame n w :
  heap (exec (getLogger n) w) = heap w
  ∧ files (exec (getLogger n) w) = files w
  ∧ out (exec (getLogger n) w) = out w
  ∧ consoles (exec (getLogger n) w) = consoles w
  ∧ root (exec (getLogger n) w) = root w.
Proof.
  unfold exec, getLogger. destruct (is_root_name n); [done|].
  by destruct (loggerDict w !! n).
Qed.

Lemma getLogger_eq n w : getLogger n w = (Ok (canon n), exec (getLogger n) w).
Proof.
  pose proof (getLogger_outcome n w) as H. unfold outcome, exec in *.
  destruct (getLogger n w). simpl in *. by subst.
Qed.

Lemma getLogger_dict_other n p w :
  p ≠ canon n → loggerDict (exec (getLogger n) w) !! p = loggerDict w !! p.
Proof.
  unfold exec, getLogger, canon. intros Hne.
  destruct (is_root_name n) eqn:E; [done|].
  destruct (loggerDict w !! n) eqn:El; [done|].
  exact (lookup_insert_ne (loggerDict w) n p (new_logger n) (not_eq_sym Hne)).
Qed.

Lemma put_logger_dict_other h p lg w :
  p ≠ h → loggerDict (put_logger h lg w) !! p = loggerDict w !! p.
Proof.
  intros Hne. unfold put_logger. destruct (String.eqb h "root"); [done|].
  exact (lookup_insert_ne (loggerDict w) h p lg (not_eq_sym Hne)).
Qed.

Lemma put_logger_root h lg w :
  h ≠ "root" → root (put_logger h lg w) = root w.
Proof.
  intros Hne. unfold put_logger.
  destruct (String.eqb_spec h "root"); [done|done].
Qed.

Lemma put_put h a b w : put_logger h a (put_logger h b w) = put_logger h a w.
Proof.
  unfold put_logger. destruct (String.eqb h "root"); [done|].
  unfold set_loggerDict. simpl. by rewrite insert_insert_eq.
Qed.

Lemma the_logger_update_eq h f w :
  the_logger h (update_logger h f w) = f (the_logger h w).
Proof. apply the_logger_put_eq. Qed.

Lemma update_update h f g w :
  update_logger h g (update_logger h f w) = update_logger h (λ lg, g (f lg)) w.
Proof.
  unfold update_logger at 1. rewrite the_logger_update_eq.
  unfold update_logger. apply put_put.
Qed.

Lemma open_append_eq p w :
  open_append p w = (Ok tt, exec (open_append p) w).
Proof. done. Qed.

Lemma update_open_append h f p w :
  update_logger h f (exec (open_append p) w)
  = exec (open_append p) (update_logger h f w).
Proof.
  unfold exec, open_append, modify, update_logger. simpl.
  rewrite files_put_logger. destruct (files w !! p); [done|].
  unfold the_logger, lookup_logger, put_logger. simpl.
  by destruct (String.eqb h "root").
Qed.

Section construction.
Context (n : string) (lv : Z) (con : option nat) (st sp efh : bool)
        (fp : option string) (w : World).

Let self := init_self n con w.
Let old := the_logger (canon n) w.
Let w1 := exec (__init__ n lv con st sp efh fp) w.

Lemma init_outcome_ok :
  (efh && falsy_path fp)%bool = false →
  outcome (__init__ n lv con st sp efh fp) w = Ok self.
Proof.
  intros Hok. unfold outcome, __init__, bind, Console, new_dict, ret.
  destruct con; simpl; rewrite getLogger_eq; simpl;
    destruct efh; simpl in *; try rewrite Hok; simpl; done.
Qed.

Lemma init_outcome_err :
  efh = true → falsy_path fp = true →
  outcome (__init__ n lv con st sp efh fp) w
  = Raise (ValueError
             "file_path must be provided when enable_file_handler=True").
Proof.
  intros -> Hbad. unfold outcome, __init__, bind, Console, new_dict, ret.
  destruct con; simpl; rewrite getLogger_eq; simpl; rewrite Hbad; done.
Qed.

(** The stages of construction: console and dict allocated, logger
    fetched, destination opened. *)
Let base : World :=
  set_heap (heap w ++ [initial_stats])
    (match con with
     | Some _ => w
     | None => set_consoles (S (consoles w)) w
     end).

Let fetched : World := exec (getLogger n) base.

Let opened : World :=
  (if (efh && negb (falsy_path fp))%bool
   then exec (open_append (default "" fp)) else id) fetched.

(** The world that construction leaves behind, whether it succeeds or
    raises: a new dict, possibly a new console and a new file, and the
    logger of that name reconfigured. *)
Lemma init_exec :
  w1 = update_logger (canon n)
         (init_logger lv (init_console con w) st sp efh fp self) opened.
Proof.
  unfold w1, opened, fetched, base, exec at 1, __init__, bind, Console,
    new_dict, ret, init_logger.
  destruct con; cbv beta iota; rewrite getLogger_eq; cbv beta iota;
    (destruct efh; [destruct (falsy_path fp)|]);
    unfold Logger.setLevel, Logger.handlers_clear, Logger.addHandler,
      Logger.addFilter, modify, raise;
    cbv beta iota; rewrite ?open_append_eq; cbv beta iota; unfold snd;
    rewrite <- ?update_open_append, !update_update;
    reflexivity.
Qed.

Lemma opened_frame :
  root opened = root fetched ∧ loggerDict opened = loggerDict fetched
  ∧ heap opened = heap fetched ∧ out opened = out fetched.
Proof.
  unfold opened, exec, open_append, modify.
  destruct (efh && negb (falsy_path fp))%bool; [|done]. simpl.
  by destruct (files fetched !! default "" fp).
Qed.

Lemma opened_lookup h : lookup_logger h opened = lookup_logger h fetched.
Proof.
  unfold lookup_logger. by destruct opened_frame as (-> & -> & _).
Qed.

Lemma fetched_old : the_logger (canon n) opened = old.
Proof.
  unfold the_logger at 1. rewrite opened_lookup. unfold fetched.
  rewrite getLogger_lookup. unfold base, old. by destruct con.
Qed.

Lemma init_heap : heap w1 = heap w ++ [initial_stats].
Proof.
  rewrite init_exec. unfold update_logger. rewrite heap_put_logger.
  destruct opened_frame as (_ & _ & -> & _). unfold fetched.
  destruct (getLogger_frame n base) as (-> & _). unfold base. by destruct con.
Qed.

Lemma init_out : out w1 = out w.
Proof.
  rewrite init_exec. unfold update_logger. rewrite out_put_logger.
  destruct opened_frame as (_ & _ & _ & ->). unfold fetched.
  destruct (getLogger_frame n base) as (_ & _ & -> & _).
  unfold base. by destruct con.
Qed.

Lemma init_lookup :
  lookup_logger (canon n) w1
  = Some (init_logger lv (init_console con w) st sp efh fp self old).
Proof.
  rewrite init_exec. unfold update_logger.
  by rewrite lookup_logger_put_eq, fetched_old.
Qed.

Lemma init_the_logger :
  the_logger (canon n) w1
  = init_logger lv (init_console con w) st sp efh fp self old.
Proof. unfold the_logger. by rewrite init_lookup. Qed.

Lemma init_lookup_other h :
  h ≠ canon n → lookup_logger h w1 = lookup_logger h w.
Proof.
  intros Hne. rewrite init_exec. unfold update_logger.
  rewrite lookup_logger_put_ne by done. rewrite opened_lookup.
  unfold fetched. rewrite getLogger_lookup_other by done.
  unfold base. by destruct con.
Qed.

Lemma init_dict_other p :
  p ≠ canon n → loggerDict w1 !! p = loggerDict w !! p.
Proof.
  intros Hne. rewrite init_exec. unfold update_logger.
  rewrite put_logger_dict_other by done.
  destruct opened_frame as (_ & -> & _). unfold fetched.
  rewrite getLogger_dict_other by done. unfold base. by destruct con.
Qed.

Lemma init_root : canon n ≠ "root" → root w1 = root w.
Proof.
  intros Hne. rewrite init_exec. unfold update_logger.
  rewrite put_logger_root by done.
  destruct opened_frame as (-> & _). unfold fetched.
  destruct (getLogger_frame n base) as (_ & _ & _ & _ & ->).
  unfold base. by destruct con.
Qed.

Lemma init_files :
  files w1
  = if (efh && negb (falsy_path fp))%bool
    then match files w !! default "" fp with
         | Some _ => files w
         | None => <[default "" fp := ""]> (files w)
         end
    else files w.
Proof.
  rewrite init_exec. unfold update_logger. rewrite files_put_logger.
  assert (files fetched = files w) as Hf.
  { unfold fetched. destruct (getLogger_frame n base) as (_ & -> & _).
    unfold base. by destruct con. }
  unfold opened.
  destruct (efh && negb (falsy_path fp))%bool; [|done].
  unfold exec, open_append, modify. cbn [snd]. rewrite Hf.
  by destruct (files w !! default "" fp).
Qed.
End construction.

(** ** The level gate *)

Lemma the_logger_ext h w w' :
  root w' = root w → loggerDict w' = loggerDict w →
  the_logger h w' = the_logger h w.
Proof. unfold the_logger, lookup_logger. by intros -> ->. Qed.

Lemma ancestors_ext h w w' :
  root w' = root w → loggerDict w' = loggerDict w →
  ancestors h w' = ancestors h w.
Proof. unfold ancestors. by intros -> ->. Qed.

Lemma isEnabledFor_own h lv w :
  level (the_logger h w) ≠ 0 → 0 < lv →
  Logger.isEnabledFor h lv w = (lv >=? level (the_logger h w)).
Proof.
  intros Hset Hpos. unfold Logger.isEnabledFor, Logger.getEffectiveLevel.
  simpl. destruct (Z.eqb_spec (level (the_logger h w)) 0); [done|].
  destruct (Z.geb_spec 0 lv); [lia|done].
Qed.

Lemma rank_pos L : 0 < rank L.
Proof. by destruct L. Qed.

(** ** Counting *)

Lemma stat_key_levelname L : lower (getLevelName (rank L)) = stat_key L.
Proof. by destruct L. Qed.

Lemma dict_get_stats_dict L cnt :
  dict_get (stat_key L) (stats_dict cnt) = Some (cnt L).
Proof. by destruct L. Qed.

Lemma dict_set_stats_dict L cnt :
  dict_set (stat_key L) (cnt L + 1) (stats_dict cnt) = stats_dict (bump cnt L).
Proof. by destruct L. Qed.

Lemma tally_count m cs : ∀ cnt L,
  tally m cnt cs L = cnt L + count_level m L cs.
Proof.
  unfold count_level.
  induction cs as [|c cs IH]; intros cnt L; simpl; [lia|].
  rewrite IH. destruct (admitted m c); simpl; [|done].
  unfold bump. destruct (decide (L = call_level c)) as [->|Hne].
  - rewrite !bool_decide_eq_true_2 by done. simpl. lia.
  - rewrite bool_decide_eq_false_2 by done.
    rewrite (bool_decide_eq_false_2 (call_level c = L)) by done. done.
Qed.

Lemma count_level_total m cs :
  count_level m LDebug cs + count_level m LInfo cs + count_level m LWarning cs
  + count_level m LError cs + count_level m LCritical cs
  = count_admitted m cs.
Proof.
  unfold count_level, count_admitted.
  induction cs as [|c cs IH]; simpl; [done|].
  destruct (admitted m c); simpl; [|done].
  destruct (call_level c); simpl; lia.
Qed.

Lemma stats_dict_ext cnt cnt' :
  (∀ L, cnt L = cnt' L) → stats_dict cnt = stats_dict cnt'.
Proof. intros H. unfold stats_dict. by rewrite !H. Qed.

Section counting.
Context (self : Reporter) (others : list Reporter) (m : Z).
Hypothesis m_set : m ≠ 0.
Hypothesis others_apart : ∀ f, f ∈ others → _stats f ≠ _stats self.

(** What the calls on [self] keep true: the logger of [self] has level
    [m] and carries the filter of [self] once, after filters of other
    dicts; the dict of [self] holds the counts [cnt]. *)
Let holds (cnt : Level → Z) (w : World) : Prop :=
  level (the_logger (logger self) w) = m
  ∧ filters (the_logger (logger self) w) = others ++ [self]
  ∧ heap w !! _stats self = Some (stats_dict cnt).

Lemma submit_holds cnt c w :
  holds cnt w →
  holds (if admitted m c then bump cnt (call_level c) else cnt)
        (exec (submit self c) w).
Proof.
  intros (Hlv & Hfs & Hd). rewrite submit_log.
  destruct (log_frame (logger self) (rank (call_level c)) (call_message c)
              (call_time c) w) as (Hr & Hl & _ & _).
  unfold holds. rewrite (the_logger_ext _ _ _ Hr Hl). split; [done|].
  split; [done|]. clear Hr Hl.
  unfold exec. rewrite log_spec. cbn [snd].
  rewrite isEnabledFor_own by (rewrite ?Hlv; auto using rank_pos).
  rewrite Hlv. fold (admitted m c). destruct (admitted m c); [|done].
  match goal with |- context [exec (Logger.callHandlers ?a ?b) ?x] =>
    destruct (callHandlers_frame a b x) as (_ & _ & -> & _) end.
  cbn [heap set_heap]. rewrite Hfs, count_events_app.
  unfold count_events at 1. cbn [fold_left].
  unfold count_event at 1.
  rewrite count_events_other by done. rewrite Hd.
  cbn [levelname Logger.makeRecord].
  rewrite stat_key_levelname, dict_get_stats_dict, dict_set_stats_dict.
  apply list_lookup_insert_eq. rewrite count_events_length.
  by apply lookup_lt_Some in Hd.
Qed.

Lemma submit_all_holds cs : ∀ cnt w,
  holds cnt w → holds (tally m cnt cs) (exec (submit_all self cs) w).
Proof.
  induction cs as [|c cs IH]; intros cnt w H; [done|].
  simpl. unfold exec, bind.
  destruct (submit self c w) as [[[]|e] w'] eqn:E.
  - apply IH. pose proof (submit_holds cnt c w H) as H'.
    unfold exec in H'. by rewrite E in H'.
  - rewrite submit_log, log_spec in E. done.
Qed.
End counting.

(** ** Snapshots *)

Lemma get_stats_spec self w :
  get_stats self w
  = (Ok (length (heap w)), set_heap (heap w ++ [stats_of self w]) w).
Proof. done. Qed.

Lemma get_stats_lookup self w :
  heap (exec (get_stats self) w) !! length (heap w) = Some (stats_of self w).
Proof.
  unfold exec. rewrite get_stats_spec. cbn [snd heap set_heap].
  by rewrite list_lookup_middle.
Qed.

(** ** Well-formed worlds *)

Lemma wf_initial_world : wf initial_world.
Proof.
  assert (∀ h lg, lookup_logger h initial_world = Some lg → filters lg = [])
    as Hnil.
  { intros h lg. unfold lookup_logger. simpl.
    destruct (String.eqb h "root"); [by intros [= <-]|].
    by rewrite lookup_empty. }
  split.
  - intros h lg. unfold lookup_logger. simpl.
    destruct (String.eqb_spec h "root"); [by intros [= <-]|].
    by rewrite lookup_empty.
  - intros h lg f Hl Hf. rewrite (Hnil _ _ Hl) in Hf. by apply elem_of_nil in Hf.
  - intros h lg f Hl Hf. rewrite (Hnil _ _ Hl) in Hf. by apply elem_of_nil in Hf.
  - intros f g (h & lg & Hl & Hf). rewrite (Hnil _ _ Hl) in Hf.
    by apply elem_of_nil in Hf.
Qed.

Lemma wf_alloc w h lg f :
  wf w → lookup_logger h w = Some lg → f ∈ filters lg →
  (_stats f < length (heap w))%nat.
Proof.
  intros Hwf Hl Hf. destruct (wf_dict w Hwf h lg f Hl Hf) as (cnt & Hd).
  by apply lookup_lt_Some in Hd.
Qed.

Lemma filters_lookup h w f :
  f ∈ filters (the_logger h w) →
  lookup_logger h w = Some (the_logger h w).
Proof.
  unfold the_logger. destruct (lookup_logger h w); [done|].
  intros Hf. by apply elem_of_nil in Hf.
Qed.

(** In a well-formed world every filter already attached to the logger of
    a name belongs to a dict older than the next allocation. *)
Lemma old_filters_allocated n w f :
  wf w → f ∈ filters (the_logger (canon n) w) →
  (_stats f < length (heap w))%nat.
Proof.
  intros Hwf Hf.
  eapply wf_alloc; [done|by eapply filters_lookup|done].
Qed.

Lemma init_self_fresh n con w :
  wf w → init_self n con w ∉ filters (the_logger (canon n) w).
Proof.
  intros Hwf Hin. apply (old_filters_allocated _ _ _ Hwf) in Hin.
  simpl in Hin. lia.
Qed.

(** A successful construction returns [init_self] and leaves the world of
    [init_exec]. *)
Lemma init_success n lv con st sp efh fp w self w1 :
  __init__ n lv con st sp efh fp w = (Ok self, w1) →
  (efh && falsy_path fp)%bool = false
  ∧ self = init_self n con w
  ∧ w1 = exec (__init__ n lv con st sp efh fp) w.
Proof.
  intros E.
  assert (outcome (__init__ n lv con st sp efh fp) w = Ok self) as Ho
    by (unfold outcome; by rewrite E).
  assert (w1 = exec (__init__ n lv con st sp efh fp) w) as Hw
    by (unfold exec; by rewrite E).
  destruct (efh && falsy_path fp)%bool eqn:Hb.
  - apply andb_true_iff in Hb as [-> Hbad].
    by rewrite init_outcome_err in Ho.
  - rewrite init_outcome_ok in Ho by done. by injection Ho as <-.
Qed.

(** The logger of a Reporter just constructed in a well-formed world. *)
Lemma init_fresh_logger n lv con st sp efh fp w self w1 :
  wf w →
  __init__ n lv con st sp efh fp w = (Ok self, w1) →
  logger self = canon n
  ∧ _stats self = length (heap w)
  ∧ level (the_logger (logger self) w1) = lv
  ∧ filters (the_logger (logger self) w1)
    = filters (the_logger (canon n) w) ++ [self]
  ∧ heap w1 !! _stats self = Some initial_stats.
Proof.
  intros Hwf E. apply init_success in E as (Hb & -> & ->).
  cbn [logger _stats init_self]. rewrite init_the_logger, init_heap.
  unfold init_logger. cbn [level filters]. rewrite Hb.
  rewrite bool_decide_eq_false_2 by by apply init_self_fresh.
  repeat split. by rewrite list_lookup_middle.
Qed.

(** Construction keeps the world well-formed, whether it succeeds or
    raises. *)
Lemma init_logger_filters lv c st sp efh fp self old f :
  f ∈ filters (init_logger lv c st sp efh fp self old) →
  f = self ∨ f ∈ filters old.
Proof.
  unfold init_logger. cbn [filters].
  destruct (efh && falsy_path fp)%bool; [by right|].
  destruct (bool_decide (self ∈ filters old)); [by right|].
  intros [?|?%list_elem_of_singleton]%elem_of_app; [by right|by left].
Qed.

Lemma init_filters_origin n lv con st sp efh fp w h lg f :
  lookup_logger h (exec (__init__ n lv con st sp efh fp) w) = Some lg →
  f ∈ filters lg →
  (f = init_self n con w ∧ h = canon n)
  ∨ (∃ lg0, lookup_logger h w = Some lg0 ∧ f ∈ filters lg0
            ∧ lname lg = lname lg0).
Proof.
  intros Hl Hf. destruct (decide (h = canon n)) as [->|Hne].
  - rewrite init_lookup in Hl. injection Hl as <-.
    apply init_logger_filters in Hf as [->|Hf]; [by left|right].
    exists (the_logger (canon n) w). split; [by eapply filters_lookup|done].
  - rewrite init_lookup_other in Hl by done. right. by exists lg.
Qed.

Lemma wf_init n lv con st sp efh fp w :
  wf w → wf (exec (__init__ n lv con st sp efh fp) w).
Proof.
  intros Hwf.
  assert (∀ f, registered f (exec (__init__ n lv con st sp efh fp) w) →
               f = init_self n con w ∨ registered f w) as Hreg.
  { intros f (h & lg & Hl & Hf).
    destruct (init_filters_origin _ _ _ _ _ _ _ _ _ _ _ Hl Hf)
      as [[-> _]|(lg0 & Hl0 & Hf0 & _)]; [by left|right].
    by exists h, lg0. }
  assert (∀ f, registered f w → (_stats f < length (heap w))%nat) as Hold.
  { intros f (h & lg & Hl & Hf). by eapply wf_alloc. }
  split.
  - intros h lg Hl. destruct (decide (h = canon n)) as [->|Hne].
    + rewrite init_lookup in Hl. injection Hl as <-. cbn [lname init_logger].
      unfold the_logger.
      destruct (lookup_logger (canon n) w) as [lg0|] eqn:E; [|done].
      by apply (wf_name w Hwf).
    + rewrite init_lookup_other in Hl by done. by apply (wf_name w Hwf).
  - intros h lg f Hl Hf. rewrite init_heap.
    destruct (init_filters_origin _ _ _ _ _ _ _ _ _ _ _ Hl Hf)
      as [[-> _]|(lg0 & Hl0 & Hf0 & _)].
    + exists (λ _, 0). cbn [_stats init_self]. by rewrite list_lookup_middle.
    + destruct (wf_dict w Hwf h lg0 f Hl0 Hf0) as (cnt & Hd).
      exists cnt. rewrite lookup_app_l by (by apply lookup_lt_Some in Hd). done.
  - intros h lg f Hl Hf.
    destruct (init_filters_origin _ _ _ _ _ _ _ _ _ _ _ Hl Hf)
      as [[-> ->]|(lg0 & Hl0 & Hf0 & _)]; [done|].
    by apply (wf_home w Hwf h lg0).
  - intros f g Hf Hg Heq.
    destruct (Hreg f Hf) as [->|Hf0], (Hreg g Hg) as [->|Hg0]; [done| | |].
    + apply Hold in Hg0. cbn [_stats init_self] in Heq. lia.
    + apply Hold in Hf0. cbn [_stats init_self] in Heq. lia.
    + by apply (wf_inj w Hwf).
Qed.

(** A counting filter keeps the shape of every dict. *)
Lemma dict_set_shape k v cnt :
  is_Some (dict_get k (stats_dict cnt)) →
  ∃ cnt', dict_set k v (stats_dict cnt) = stats_dict cnt'.
Proof.
  intros [v0 Hget].
  assert (∃ L, k = stat_key L) as [L ->].
  { unfold stats_dict in Hget. simpl in Hget.
    destruct (String.eqb_spec k "debug") as [->|]; [by exists LDebug|].
    destruct (String.eqb_spec k "info") as [->|]; [by exists LInfo|].
    destruct (String.eqb_spec k "warning") as [->|]; [by exists LWarning|].
    destruct (String.eqb_spec k "error") as [->|]; [by exists LError|].
    destruct (String.eqb_spec k "critical") as [->|]; [by exists LCritical|].
    done. }
  exists (λ L', if bool_decide (L' = L) then v else cnt L'). by destruct L.
Qed.

Lemma count_event_shape f r hp (l : loc) cnt :
  hp !! l = Some (stats_dict cnt) →
  ∃ cnt', count_event f r hp !! l = Some (stats_dict cnt').
Proof.
  intros Hl. destruct (decide (_stats f = l)) as [<-|Hne].
  - unfold count_event. rewrite Hl.
    destruct (dict_get _ (stats_dict cnt)) as [v|] eqn:Hget; [|by exists cnt].
    destruct (dict_set_shape (lower (levelname r)) (v + 1) cnt) as (cnt' & ->);
      [by rewrite Hget|].
    exists cnt'. apply list_lookup_insert_eq. by apply lookup_lt_Some in Hl.
  - exists cnt. by rewrite count_event_other.
Qed.

Lemma count_events_shape fs r : ∀ hp (l : loc) cnt,
  hp !! l = Some (stats_dict cnt) →
  ∃ cnt', count_events fs r hp !! l = Some (stats_dict cnt').
Proof.
  induction fs as [|f fs IH]; intros hp l cnt Hl; [by exists cnt|].
  destruct (count_event_shape f r hp l cnt Hl) as (cnt1 & H1).
  exact (IH _ _ _ H1).
Qed.

(** Worlds that agree on the registry and keep the shape of the dicts are
    well-formed together. *)
Lemma wf_same_registry w w' :
  wf w → root w' = root w → loggerDict w' = loggerDict w →
  (∀ (l : loc) cnt, heap w !! l = Some (stats_dict cnt) →
      ∃ cnt', heap w' !! l = Some (stats_dict cnt')) →
  wf w'.
Proof.
  intros Hwf Hr Hd Hshape.
  assert (∀ h, lookup_logger h w' = lookup_logger h w) as Hl
    by (intros h; unfold lookup_logger; by rewrite Hr, Hd).
  split.
  - intros h lg. rewrite Hl. apply (wf_name w Hwf).
  - intros h lg f. rewrite Hl. intros H1 H2.
    destruct (wf_dict w Hwf h lg f H1 H2) as (cnt & Hc). by eapply Hshape.
  - intros h lg f. rewrite Hl. apply (wf_home w Hwf).
  - intros f g (h & lg & H1 & H2) (h' & lg' & H1' & H2').
    rewrite Hl in H1, H1'.
    apply (wf_inj w Hwf); [by exists h, lg|by exists h', lg'].
Qed.

Lemma wf_log h lv msg t w : wf w → wf (exec (Logger.log h lv msg t) w).
Proof.
  intros Hwf.
  destruct (log_frame h lv msg t w) as (Hr & Hd & _ & _).
  apply (wf_same_registry w); [done..|].
  intros l cnt Hl. unfold exec. rewrite log_spec. cbn [snd].
  destruct (Logger.isEnabledFor h lv w); [|by exists cnt].
  match goal with |- context [exec (Logger.callHandlers ?a ?b) ?x] =>
    destruct (callHandlers_frame a b x) as (_ & _ & -> & _) end.
  cbn [heap set_heap]. by eapply count_events_shape.
Qed.

Lemma wf_submit self c w : wf w → wf (exec (submit self c) w).
Proof. rewrite submit_log. apply wf_log. Qed.

Lemma wf_get_stats self w : wf w → wf (exec (get_stats self) w).
Proof.
  intros Hwf. apply (wf_same_registry w); [done..|].
  intros l cnt Hl. exists cnt. unfold exec. rewrite get_stats_spec.
  cbn [snd heap set_heap].
  rewrite lookup_app_l by (by apply lookup_lt_Some in Hl). done.
Qed.

Lemma snapshot_stats self w : snapshot self w = Some (stats_of self w).
Proof.
  unfold snapshot. rewrite get_stats_spec. cbn [heap set_heap].
  by rewrite list_lookup_middle.
Qed.

(** ** Reports *)

Lemma report_spec self title w :
  report self title w
  = (Ok (length (heap w)),
     set_heap (heap w ++ [stats_of self w])
       (set_out (out w ++ [summary_panel self title (stats_of self w)]) w)).
Proof. done. Qed.

Lemma report_keeps self title w (l : loc) d :
  heap w !! l = Some d → heap (exec (report self title) w) !! l = Some d.
Proof.
  intros H. unfold exec. rewrite report_spec. cbn [snd heap set_heap].
  rewrite lookup_app_l by (by apply lookup_lt_Some in H). done.
Qed.

Lemma wf_report self title w : wf w → wf (exec (report self title) w).
Proof.
  intros Hwf. apply (wf_same_registry w); [done..|].
  intros l cnt Hl. exists cnt. by apply report_keeps.
Qed.



(** Every world a program reaches is well-formed. *)
Lemma reachable_wf w : reachable w → wf w.
Proof.
  induction 1 as [|w w' _ IH Hstep]; [apply wf_initial_world|].
  destruct Hstep.
  - by apply wf_init.
  - by apply wf_submit.
  - by apply wf_log.
  - by apply wf_get_stats.
  - by apply wf_report.
Qed.

(** ** The [with] statement *)

Lemma with_exec self body w :
  exec (with_ self body) w
  = exec (report self default_title) (exec (body self) w).
Proof.
  unfold exec, with_, __enter__, __exit__, bind, ret.
  destruct (body self w) as [[[]|e] w']; cbn [snd]; rewrite report_spec; done.
Qed.

Lemma with_out self body w :
  out (exec (with_ self body) w)
  = out (exec (body self) w)
      ++ [summary_panel self "Report Summary"
            (stats_of self (exec (body self) w))].
Proof. rewrite with_exec. unfold exec at 1. by rewrite report_spec. Qed.

(** ** Levels outside the five *)

Lemma other_level_not_a_key lv cnt :
  (∀ L, lv ≠ rank L) →
  dict_get (lower (getLevelName lv)) (stats_dict cnt) = None.
Proof.
  intros Hout. unfold getLevelName.
  destruct (Z.eqb_spec lv 50) as [->|_]; [by destruct (Hout LCritical)|].
  destruct (Z.eqb_spec lv 40) as [->|_]; [by destruct (Hout LError)|].
  destruct (Z.eqb_spec lv 30) as [->|_]; [by destruct (Hout LWarning)|].
  destruct (Z.eqb_spec lv 20) as [->|_]; [by destruct (Hout LInfo)|].
  destruct (Z.eqb_spec lv 10) as [->|_]; [by destruct (Hout LDebug)|].
  destruct (Z.eqb_spec lv 0) as [->|_]; [done|].
  done.
Qed.

Lemma count_event_other_level f lv h msg t w hp cnt :
  (∀ L, lv ≠ rank L) →
  hp !! _stats f = Some (stats_dict cnt) →
  count_event f (Logger.makeRecord h lv msg t w) hp = hp.
Proof.
  intros Hout Hd. unfold count_event. rewrite Hd.
  cbn [levelname Logger.makeRecord]. by rewrite other_level_not_a_key.
Qed.

Lemma count_events_other_level fs lv h msg t w hp :
  (∀ L, lv ≠ rank L) →
  (∀ f, f ∈ fs → ∃ cnt, hp !! _stats f = Some (stats_dict cnt)) →
  count_events fs (Logger.makeRecord h lv msg t w) hp = hp.
Proof.
  intros Hout. induction fs as [|f fs IH]; intros Hfs; [done|].
  unfold count_events in *. cbn [fold_left].
  destruct (Hfs f) as (cnt & Hd); [left|].
  rewrite (count_event_other_level _ _ _ _ _ _ _ cnt) by done.
  apply IH. intros g Hg. apply Hfs. by right.
Qed.

(** ** The hierarchy *)

Lemma substring_length s : ∀ i,
  (i ≤ String.length s)%nat → String.length (substring 0 i s) = i.
Proof.
  induction s as [|ch s IH]; intros [|i] Hi; simpl in *; try done; try lia.
  rewrite IH; [done|lia].
Qed.

Lemma dotted_prefixes_below_shorter s p : ∀ k,
  (k < String.length s)%nat → p ∈ dotted_prefixes_below s k →
  (String.length p < String.length s)%nat.
Proof.
  induction k as [|k IH]; intros Hk Hp; simpl in Hp.
  - by apply elem_of_nil in Hp.
  - assert (p = substring 0 (S k) s ∨ p ∈ dotted_prefixes_below s k) as [->|H].
    { destruct (String.get (S k) s) as [ch|]; [|by right].
      destruct (Ascii.eqb_spec ch ".") as [->|Hne].
      - apply elem_of_cons in Hp as [->|?]; [by left|by right].
      - right. by destruct ch as [[] [] [] [] [] [] [] []]. }
    + rewrite substring_length; lia.
    + apply IH; [lia|done].
Qed.

Lemma dotted_prefixes_proper s p : p ∈ dotted_prefixes s → p ≠ s.
Proof.
  unfold dotted_prefixes. intros Hp ->.
  destruct s as [|ch s]; [by apply elem_of_nil in Hp|].
  apply dotted_prefixes_below_shorter in Hp; simpl in *; lia.
Qed.

Lemma omap_agree {A B} (f g : A → option B) (l : list A) :
  (∀ x, x ∈ l → f x = g x) → omap f l = omap g l.
Proof.
  induction l as [|x l IH]; intros H; [done|].
  assert (omap f l = omap g l) as E
    by (apply IH; intros y Hy; apply H; by right).
  csimpl. rewrite (H x) by left. by rewrite E.
Qed.

(** Construction does not touch the ancestors of the logger it
    configures. *)
Lemma init_ancestors n lv con st sp efh fp w :
  ancestors (canon n) (exec (__init__ n lv con st sp efh fp) w)
  = ancestors (canon n) w.
Proof.
  unfold ancestors. destruct (String.eqb_spec (canon n) "root"); [done|].
  rewrite init_root by done. f_equal. apply omap_agree.
  intros p Hp. apply init_dict_other. by apply dotted_prefixes_proper.
Qed.

(** ** The file handler *)

Lemma handle_each_files hs r : ∀ w,
  (∀ p lv, FileHandler p lv ∉ hs) →
  files (Logger.handle_each hs r w) = files w.
Proof.
  induction hs as [|hdlr hs IH]; intros w Hno; [done|].
  cbn [Logger.handle_each].
  rewrite IH by (intros p lv Hin; apply (Hno p lv); by right).
  destruct (levelno r >=? handler_level hdlr); [|done].
  destruct hdlr as [c st sp lv|p lv]; [done|].
  destruct (Hno p lv). left.
Qed.

Lemma no_file_concat (lgs : list Logger) :
  (∀ lg, lg ∈ lgs → ∀ p lv, FileHandler p lv ∉ handlers lg) →
  ∀ p lv, FileHandler p lv ∉ concat (map handlers lgs).
Proof.
  induction lgs as [|lg lgs IH]; intros H p lv Hin; simpl in Hin.
  - by apply elem_of_nil in Hin.
  - apply elem_of_app in Hin as [Hin|Hin].
    + apply (H lg (list_elem_of_here _ _) p lv Hin).
    + apply (IH (λ lg' Hlg', H lg' (list_elem_of_further _ _ _ Hlg')) p lv Hin).
Qed.

Lemma levelname_upper L : getLevelName (rank L) = upper (stat_key L).
Proof. by destruct L. Qed.

Section persistence.
Context (self : Reporter) (c0 : nat) (st sp : bool) (m : Z)
        (path logger_name : string).
Hypothesis m_set : m ≠ 0.

(** What the calls on [self] keep true: its logger has level [m], the
    name [logger_name] and the two handlers of [__init__]; no ancestor
    has a file handler; the file holds [content]. *)
Let holds (content : string) (w : World) : Prop :=
  level (the_logger (logger self) w) = m
  ∧ lname (the_logger (logger self) w) = logger_name
  ∧ handlers (the_logger (logger self) w)
    = [RichHandler c0 st sp m; FileHandler path m]
  ∧ (∀ lg, lg ∈ ancestors (logger self) w →
       ∀ p lv, FileHandler p lv ∉ handlers lg)
  ∧ files w !! path = Some content.

Lemma submit_persists content c w :
  holds content w →
  holds (if admitted m c then content +:+ file_line logger_name c else content)
        (exec (submit self c) w).
Proof.
  intros (Hlv & Hnm & Hhs & Hanc & Hf). rewrite submit_log.
  destruct (log_frame (logger self) (rank (call_level c)) (call_message c)
              (call_time c) w) as (Hr & Hl & _ & _).
  unfold holds.
  rewrite (the_logger_ext _ _ _ Hr Hl), (ancestors_ext _ _ _ Hr Hl).
  do 4 (split; [done|]). clear Hr Hl.
  unfold exec. rewrite log_spec. cbn [snd].
  rewrite isEnabledFor_own by (rewrite ?Hlv; auto using rank_pos).
  rewrite Hlv. fold (admitted m c). destruct (admitted m c) eqn:Hadm; [|done].
  unfold exec, Logger.callHandlers, modify. cbn [snd].
  set (w' := set_heap _ w).
  assert (the_logger (logger self) w' = the_logger (logger self) w) as ->
    by done.
  assert (ancestors (logger self) w' = ancestors (logger self) w) as ->
    by done.
  cbn [map concat]. rewrite Hhs. cbn [app].
  cbn [Logger.handle_each handler_level levelno Logger.makeRecord].
  unfold admitted in Hadm. rewrite Hadm.
  rewrite handle_each_files by by apply no_file_concat.
  cbn [Logger.emit]. unfold write_append. cbn [files set_files set_out].
  rewrite lookup_insert_eq. subst w'. cbn [files set_heap]. rewrite Hf.
  cbn [default]. unfold Logger.format_file, file_line.
  unfold Logger.makeRecord. cbn [asctime rec_name levelname message].
  by rewrite Hnm, levelname_upper.
Qed.

Lemma submit_all_persists cs : ∀ content w,
  holds content w →
  holds (persisted m logger_name content cs) (exec (submit_all self cs) w).
Proof.
  induction cs as [|c cs IH]; intros content w H; [done|].
  simpl. unfold exec, bind.
  destruct (submit self c w) as [[[]|e] w'] eqn:E.
  - apply IH. pose proof (submit_persists content c w H) as H'.
    unfold exec in H'. by rewrite E in H'.
  - rewrite submit_log, log_spec in E. done.
Qed.
End persistence.

Lemma line_breaks_app a b :
  line_breaks (a +:+ b) = (line_breaks a + line_breaks b)%nat.
Proof.
  induction a as [|ch a IH]; simpl; [done|]. rewrite IH. lia.
Qed.

(** An entry whose fields have no line break is one line: its only line
    break is the terminator. *)
Lemma file_line_one_line logger_name c :
  line_breaks logger_name = 0%nat →
  line_breaks (call_time c) = 0%nat →
  line_breaks (call_message c) = 0%nat →
  line_breaks (file_line logger_name c) = 1%nat.
Proof.
  intros Hn Ht Hm. unfold file_line. rewrite !line_breaks_app, Hn, Ht, Hm.
  by destruct (call_level c).
Qed.

Lemma canon_line_breaks n : line_breaks n = 0%nat → line_breaks (canon n) = 0%nat.
Proof. unfold canon. by destruct (is_root_name n). Qed.

Lemma the_logger_name h w : wf w → lname (the_logger h w) = h.
Proof.
  intros Hwf. unfold the_logger.
  destruct (lookup_logger h w) as [lg|] eqn:E; [|done].
  by apply (wf_name w Hwf).
Qed.

(** * The claims *)

(** C1.  A Reporter constructed with minimum level [m], in any well-formed
    world and under any name, followed by any finite sequence of leveled
    calls on it: the mapping that [get_stats] returns holds, for each of
    the five levels, the number of calls made at that level whose rank is
    at least [m], and its values add up to the number of admitted calls. *)
Theorem C1_get_stats_counts_admitted_calls
    (w : World) (n : string) (m : Level) (con : option nat)
    (st sp efh : bool) (fp : option string)
    (self : Reporter) (w1 : World) (cs : list Call) :
  wf w →
  __init__ n (rank m) con st sp efh fp w = (Ok self, w1) →
  let w2 := exec (submit_all self cs) w1 in
  ∃ l d,
    outcome (get_stats self) w2 = Ok l
    ∧ heap (exec (get_stats self) w2) !! l = Some d
    ∧ d = stats_dict (λ L, count_level (rank m) L cs)
    ∧ sum (dict_values d) = count_admitted (rank m) cs.
Proof.
  intros Hwf E w2.
  destruct (init_fresh_logger _ _ _ _ _ _ _ _ _ _ Hwf E)
    as (Hlg & Hst & Hlv & Hfs & Hd).
  assert (rank m ≠ 0) as Hm by (pose proof (rank_pos m); lia).
  assert (∀ f, f ∈ filters (the_logger (canon n) w) → _stats f ≠ _stats self)
    as Hapart.
  { intros f Hf. apply (old_filters_allocated _ _ _ Hwf) in Hf. lia. }
  destruct (submit_all_holds self _ (rank m) Hm Hapart cs (λ _, 0) w1)
    as (_ & _ & Hfin); [by repeat split|].
  fold w2 in Hfin.
  exists (length (heap w2)), (stats_dict (λ L, count_level (rank m) L cs)).
  split; [done|]. split; [|split; [done|]].
  - rewrite get_stats_lookup. unfold stats_of. rewrite Hfin. simpl.
    f_equal. apply stats_dict_ext. intros L. by rewrite tally_count.
  - rewrite <- count_level_total. simpl. lia.
Qed.

(** The scenario of C1: at minimum level DEBUG, the submissions DEBUG,
    DEBUG, INFO, INFO, INFO, WARNING, ERROR, ERROR, CRITICAL, CRITICAL. *)
Lemma C1_scenario_witness :
  let calls :=
    map (λ L, {| call_level := L; call_message := "m"; call_time := "t" |})
      [LDebug; LDebug; LInfo; LInfo; LInfo; LWarning; LError; LError;
       LCritical; LCritical] in
  let built := __init__ "app" DEBUG None true false false None initial_world in
  ∃ self w1,
    built = (Ok self, w1)
    ∧ ∃ l d,
        outcome (get_stats self) (exec (submit_all self calls) w1) = Ok l
        ∧ heap (exec (get_stats self) (exec (submit_all self calls) w1)) !! l
          = Some d
        ∧ d = [("debug", 2); ("info", 3); ("warning", 1); ("error", 2);
               ("critical", 2)]
        ∧ sum (dict_values d) = 10.
Proof.
  intros calls built.
  exists (init_self "app" None initial_world), (snd built).
  split; [reflexivity|].
  exact (C1_get_stats_counts_admitted_calls initial_world "app" LDebug None
           true false false None _ _ calls wf_initial_world eq_refl).
Defined.

(** C3.  A leveled call below the minimum level of the Reporter's logger
    changes nothing at all: it returns normally and leaves the whole world
    as it was, so the mapping of [get_stats] is the same, no console
    receives anything and no file gets a line. *)
Theorem C3_call_below_minimum_is_noop
    (w : World) (self : Reporter) (m : Level) (c : Call) :
  level (the_logger (logger self) w) = rank m →
  rank (call_level c) < rank m →
  submit self c w = (Ok tt, w)
  ∧ snapshot self (exec (submit self c) w) = snapshot self w
  ∧ out (exec (submit self c) w) = out w
  ∧ files (exec (submit self c) w) = files w.
Proof.
  intros Hlv Hlt.
  assert (submit self c w = (Ok tt, w)) as E.
  { rewrite submit_log, log_spec.
    pose proof (rank_pos m) as Hm.
    rewrite isEnabledFor_own; [|lia|apply rank_pos].
    rewrite Hlv. destruct (Z.geb_spec (rank (call_level c)) (rank m)); [lia|done]. }
  unfold exec. by rewrite E.
Qed.

Lemma C3_witness :
  let built := __init__ "app" WARNING None true false true (Some "app.log")
                 initial_world in
  let self := init_self "app" None initial_world in
  let c := {| call_level := LInfo; call_message := "m"; call_time := "t" |} in
  submit self c (snd built) = (Ok tt, snd built)
  ∧ snapshot self (exec (submit self c) (snd built)) = snapshot self (snd built)
  ∧ out (exec (submit self c) (snd built)) = out (snd built)
  ∧ files (exec (submit self c) (snd built)) = files (snd built).
Proof.
  intros built self c.
  apply (C3_call_below_minimum_is_noop (snd built) self LWarning c);
    [reflexivity | reflexivity].
Defined.

(** C8.  Construction with the file handler enabled and no path (or an
    empty one) raises [ValueError] from [__init__]; no Reporter comes
    back, from the class or from [get_reporter]. *)
Theorem C8_file_handler_without_path_raises
    (n : string) (lv : Z) (con : option nat) (st sp : bool) (w : World) :
  let e := ValueError
             "file_path must be provided when enable_file_handler=True" in
  outcome (__init__ n lv con st sp true None) w = Raise e
  ∧ outcome (__init__ n lv con st sp true (Some "")) w = Raise e
  ∧ outcome (get_reporter n lv con st sp true None) w = Raise e.
Proof. intros e. repeat split; by apply init_outcome_err. Qed.

(** C4.  Leaving a [with] block of a Reporter, normally or through an
    exception of the body, runs [report] exactly once with the default
    title: the world after the block is the world after the body followed
    by that one call, and the trace grows by exactly one panel, titled
    "Report Summary" and holding the counters as the body left them. *)
Theorem C4_with_reports_once_on_exit
    (self : Reporter) (body : Reporter → M unit) (w : World) :
  let after_body := exec (body self) w in
  default_title = "Report Summary"
  ∧ exec (with_ self body) w = exec (report self default_title) after_body
  ∧ out (exec (with_ self body) w)
    = out after_body
        ++ [summary_panel self "Report Summary" (stats_of self after_body)].
Proof.
  intros after_body. split; [done|]. split; [apply with_exec|apply with_out].
Qed.

(** C10.  An exception raised in the body of a [with] block is not
    swallowed: [__exit__] returns [None], so after the summary has been
    printed, with the counters as they stood when the body failed, the
    block raises that same exception. *)
Theorem C10_with_propagates_exception
    (self : Reporter) (body : Reporter → M unit) (w : World) (e : Exn) :
  outcome (body self) w = Raise e →
  outcome (__exit__ self (Some e)) (exec (body self) w) = Ok PyNone
  ∧ outcome (with_ self body) w = Raise e
  ∧ out (exec (with_ self body) w)
    = out (exec (body self) w)
        ++ [summary_panel self "Report Summary"
              (stats_of self (exec (body self) w))].
Proof.
  intros Hraise. split; [done|]. split; [|apply with_out].
  unfold outcome, exec, with_, __enter__, __exit__, bind, ret in *.
  destruct (body self w) as [[[]|e'] w']; cbn [fst] in Hraise; [done|].
  injection Hraise as ->. by rewrite report_spec.
Qed.

Lemma C10_witness :
  let self := init_self "job" None initial_world in
  let w := exec (__init__ "job" INFO None true false false None) initial_world in
  let boom := ValueError "boom" in
  let body := λ r : Reporter, do' info r "before" "t"; raise boom in
  outcome (body self) w = Raise boom
  ∧ outcome (with_ self body) w = Raise boom
  ∧ out (exec (with_ self body) w)
    = out (exec (body self) w)
        ++ [summary_panel self "Report Summary"
              [("debug", 0); ("info", 1); ("warning", 0); ("error", 0);
               ("critical", 0)]].
Proof.
  intros self w boom body.
  assert (outcome (body self) w = Raise boom) as H by reflexivity.
  split; [exact H|].
  exact (proj2 (C10_with_propagates_exception self body w boom H)).
Defined.

(** C5.  [get_stats] hands out a new dict object: whatever the caller
    does to it afterwards, the counters of the Reporter stay as they were
    and the next [get_stats] returns the original counts again. *)
Theorem C5_get_stats_returns_independent_copy
    (self : Reporter) (w : World) (d : Dict) (f : Dict → Dict) :
  heap w !! _stats self = Some d →
  ∃ l,
    outcome (get_stats self) w = Ok l
    ∧ l ≠ _stats self
    ∧ heap (exec (get_stats self) w) !! l = Some d
    ∧ let w2 := exec (mutate l f) (exec (get_stats self) w) in
      heap w2 !! l = Some (f d)
      ∧ stats_of self w2 = d
      ∧ snapshot self w2 = Some d.
Proof.
  intros Hd. pose proof (lookup_lt_Some _ _ _ Hd) as Hlt.
  exists (length (heap w)). split; [done|]. split; [lia|].
  assert (heap (exec (get_stats self) w) !! length (heap w) = Some d) as Hl.
  { rewrite get_stats_lookup. unfold stats_of. by rewrite Hd. }
  split; [done|]. cbv zeta.
  assert (heap (exec (mutate (length (heap w)) f) (exec (get_stats self) w))
          = <[length (heap w) := f d]> (heap (exec (get_stats self) w))) as Hm.
  { unfold mutate, modify, exec at 1. cbn [snd]. by rewrite Hl. }
  assert (stats_of self
            (exec (mutate (length (heap w)) f) (exec (get_stats self) w)) = d)
    as Hs.
  { unfold stats_of. rewrite Hm, list_lookup_insert_ne by lia.
    unfold exec. rewrite get_stats_spec. cbn [snd heap set_heap].
    rewrite lookup_app_l by done. by rewrite Hd. }
  split; [|split; [done|by rewrite snapshot_stats, Hs]].
  rewrite Hm. apply list_lookup_insert_eq. by apply lookup_lt_Some in Hl.
Qed.

Lemma C5_witness :
  let self := init_self "app" None initial_world in
  let w := exec (do r <- __init__ "app" INFO None true false false None;
                 info r "Test" "t") initial_world in
  let clobber := dict_set "info" 999 in
  heap w !! _stats self = Some (stats_dict (bump (λ _, 0) LInfo))
  ∧ ∃ l,
      outcome (get_stats self) w = Ok l
      ∧ heap (exec (mutate l clobber) (exec (get_stats self) w)) !! l
        = Some [("debug", 0); ("info", 999); ("warning", 0); ("error", 0);
                ("critical", 0)]
      ∧ snapshot self (exec (mutate l clobber) (exec (get_stats self) w))
        = Some [("debug", 0); ("info", 1); ("warning", 0); ("error", 0);
                ("critical", 0)].
Proof.
  intros self w clobber.
  assert (heap w !! _stats self = Some (stats_dict (bump (λ _, 0) LInfo)))
    as H by reflexivity.
  split; [exact H|].
  destruct (C5_get_stats_returns_independent_copy self w _ clobber H)
    as (l & Ho & _ & _ & Hm & _ & Hs).
  exists l. split; [exact Ho|]. split; [exact Hm|exact Hs].
Defined.



(** C2, as stated, fails for two Reporters of the same name: both hold
    the one logger that [logging.getLogger] keeps under that name, the
    counting filter of the first is still attached to it, and a call on
    the second is counted by the first as well. *)
Lemma C2_same_name_counterexample :
  let build := __init__ "app" INFO None true false false None in
  let first := init_self "app" None initial_world in
  let w1 := exec build initial_world in
  let second := init_self "app" None w1 in
  let w2 := exec build w1 in
  outcome build initial_world = Ok first
  ∧ outcome build w1 = Ok second
  ∧ first ≠ second
  ∧ snapshot first w2
    = Some [("debug", 0); ("info", 0); ("warning", 0); ("error", 0);
            ("critical", 0)]
  ∧ snapshot first (exec (info second "hello" "t") w2)
    = Some [("debug", 0); ("info", 1); ("warning", 0); ("error", 0);
            ("critical", 0)]
  ∧ snapshot first (exec (info second "hello" "t") w2) ≠ snapshot first w2.
Proof.
  intros build first w1 second w2.
  repeat split; try reflexivity; by vm_compute.
Qed.

(** C2, amended.  In a well-formed world, a leveled call on a Reporter
    never changes what [get_stats] returns for a Reporter attached to a
    different logger. *)
Theorem C2_different_loggers_are_independent
    (w : World) (one other : Reporter) (c : Call) :
  wf w →
  registered one w →
  logger one ≠ logger other →
  snapshot one (exec (submit other c) w) = snapshot one w.
Proof.
  intros Hwf Hreg Hne. rewrite !snapshot_stats. f_equal.
  unfold stats_of. f_equal. rewrite submit_log. unfold exec.
  rewrite log_spec. cbn [snd].
  destruct (Logger.isEnabledFor _ _ w); [|done].
  match goal with |- context [exec (Logger.callHandlers ?a ?b) ?x] =>
    destruct (callHandlers_frame a b x) as (_ & _ & -> & _) end.
  cbn [heap set_heap]. apply count_events_other.
  intros f Hf Heq. apply Hne.
  pose proof (filters_lookup _ _ _ Hf) as Hl.
  assert (f = one) as ->.
  { apply (wf_inj w Hwf); [by eexists _, _|done|done]. }
  by apply (wf_home w Hwf _ _ _ Hl).
Qed.

Lemma C2_witness :
  let one := init_self "app1" None initial_world in
  let w1 := exec (__init__ "app1" INFO None true false false None)
              initial_world in
  let other := init_self "app2" None w1 in
  let w2 := exec (__init__ "app2" INFO None true false false None) w1 in
  let c := {| call_level := LWarning; call_message := "App2 warning";
              call_time := "t" |} in
  registered one w2
  ∧ logger one ≠ logger other
  ∧ snapshot one (exec (submit other c) w2) = snapshot one w2.
Proof.
  intros one w1 other w2 c.
  assert (registered one w2) as Hreg.
  { exists "app1", (the_logger "app1" w2). split; [reflexivity|].
    apply list_elem_of_singleton. reflexivity. }
  assert (logger one ≠ logger other) as Hne by (by vm_compute).
  split; [exact Hreg|]. split; [exact Hne|].
  apply (C2_different_loggers_are_independent w2 one other c);
    [apply wf_init, wf_init, wf_initial_world | exact Hreg | exact Hne].
Defined.

(** C7, as stated, fails: the class has no error for a level outside the
    five.  A record logged at level 25 through the Reporter's logger is
    accepted without any exception, rendered on the console, and counted
    nowhere. *)
Lemma C7_level_25_counterexample :
  let self := init_self "app" None initial_world in
  let w := exec (__init__ "app" DEBUG None true false false None)
             initial_world in
  let call := Logger.log (logger self) 25 "custom" "t" in
  outcome call w = Ok tt
  ∧ out (exec call w)
    = out w ++ [ELog (console self)
                  {| rec_name := "app"; levelno := 25;
                     levelname := "Level 25"; message := "custom";
                     asctime := "t" |}]
  ∧ snapshot self (exec call w) = snapshot self w
  ∧ snapshot self (exec call w)
    = Some [("debug", 0); ("info", 0); ("warning", 0); ("error", 0);
            ("critical", 0)].
Proof. intros self w call. repeat split; reflexivity. Qed.

(** C7, amended.  A record at a level outside the five is not rejected:
    the call returns normally, every counting filter lets the record pass
    and leaves the world as it is, so no counter changes, and when the
    level passes the gate the record goes to the handlers like any
    other. *)
Theorem C7_other_levels_pass_uncounted
    (w : World) (self : Reporter) (lv : Z) (msg t : string) :
  wf w →
  (∀ L, lv ≠ rank L) →
  let call := Logger.log (logger self) lv msg t in
  let record := Logger.makeRecord (logger self) lv msg t w in
  outcome call w = Ok tt
  ∧ (∀ f, f ∈ filters (the_logger (logger self) w) →
       _count_log_event f record w = (Ok true, w))
  ∧ heap (exec call w) = heap w
  ∧ exec call w
    = if Logger.isEnabledFor (logger self) lv w
      then exec (Logger.callHandlers (logger self) record) w
      else w.
Proof.
  intros Hwf Hout call record.
  assert (∀ f, f ∈ filters (the_logger (logger self) w) →
            ∃ cnt, heap w !! _stats f = Some (stats_dict cnt)) as Hshape.
  { intros f Hf. eapply (wf_dict w Hwf); [by eapply filters_lookup|done]. }
  assert (exec call w
          = if Logger.isEnabledFor (logger self) lv w
            then exec (Logger.callHandlers (logger self) record) w
            else w) as Hex.
  { unfold call, exec at 1. rewrite log_spec. cbn [snd].
    destruct (Logger.isEnabledFor (logger self) lv w); [|done].
    fold record. unfold record at 2.
    by rewrite count_events_other_level, set_heap_id. }
  split; [unfold outcome, call; by rewrite log_spec|]. split.
  - intros f Hf. destruct (Hshape f Hf) as (cnt & Hd).
    rewrite _count_log_event_spec. unfold record.
    by rewrite (count_event_other_level _ _ _ _ _ _ _ cnt), set_heap_id.
  - split; [|done]. rewrite Hex.
    destruct (Logger.isEnabledFor (logger self) lv w); [|done].
    by destruct (callHandlers_frame (logger self) record w) as (_ & _ & -> & _).
Qed.

Lemma C7_witness :
  let self := init_self "app" None initial_world in
  let w := exec (__init__ "app" DEBUG None true false false None)
             initial_world in
  let call := Logger.log (logger self) 25 "custom" "t" in
  (∀ L, 25 ≠ rank L)
  ∧ outcome call w = Ok tt
  ∧ heap (exec call w) = heap w.
Proof.
  intros self w call.
  assert (∀ L, 25 ≠ rank L) as Hout by (by intros []).
  split; [exact Hout|].
  destruct (C7_other_levels_pass_uncounted w self 25 "custom" "t"
              (wf_init _ _ _ _ _ _ _ _ wf_initial_world) Hout)
    as (Ho & _ & Hh & _).
  split; [exact Ho|exact Hh].
Defined.

(** C9, as stated, fails in three ways.  For a Reporter with the empty
    name the logger is the root logger, and the second field of the line
    is the name of the logger, "root", not the name of the Reporter.  When
    the logger of a parent name has a file handler on the same file, one
    admitted record of the child is appended twice, once by each handler.
    And a message with a line feed in it is written as it is, so that one
    record takes two lines. *)
Lemma C9_counterexample :
  let c := {| call_level := LInfo; call_message := "started";
              call_time := "T" |} in
  (let build := __init__ "" INFO None true false true (Some "run.log") in
   let self := init_self "" None initial_world in
   let w := exec build initial_world in
   outcome build initial_world = Ok self
   ∧ name self = ""
   ∧ files (exec (submit self c) w) !! "run.log"
     = Some ("T - root - INFO - started" +:+ terminator)
   ∧ files (exec (submit self c) w) !! "run.log"
     ≠ Some (file_line (name self) c))
  ∧ (let parent := __init__ "svc" INFO None true false true (Some "svc.log") in
     let build := __init__ "svc.db" INFO None true false true (Some "svc.log") in
     let w1 := exec parent initial_world in
     let self := init_self "svc.db" None w1 in
     let w2 := exec build w1 in
     outcome build w1 = Ok self
     ∧ files w2 !! "svc.log" = Some ""
     ∧ files (exec (submit self c) w2) !! "svc.log"
       = Some (file_line "svc.db" c +:+ file_line "svc.db" c))
  ∧ (let build := __init__ "app" INFO None true false true (Some "app.log") in
     let self := init_self "app" None initial_world in
     let w := exec build initial_world in
     let broken := {| call_level := LInfo;
                      call_message := "two" +:+ terminator +:+ "lines";
                      call_time := "T" |} in
     outcome build initial_world = Ok self
     ∧ files (exec (submit self broken) w) !! "app.log"
       = Some ("T - app - INFO - two" +:+ terminator
               +:+ "lines" +:+ terminator)
     ∧ line_breaks ("T - app - INFO - two" +:+ terminator
                 +:+ "lines" +:+ terminator) = 2%nat).
Proof.
  intros c. repeat split; try reflexivity. by vm_compute.
Qed.

(** C9, amended.  A Reporter constructed with a destination path, in a
    well-formed world where no ancestor of its logger has a file handler:
    construction leaves the file in place with its earlier contents, or
    empty when it did not exist, and a sequence of leveled calls appends
    to it exactly one entry per admitted call, in order: the text
    "time - logger name - LEVEL - message" and a line feed, the logger
    name being the name of the Reporter or "root" when that name is
    empty.  The entry is one line when the name, the time and the message
    have no line feed and no carriage return in them. *)
Theorem C9_admitted_records_are_appended
    (w : World) (n : string) (m : Level) (con : option nat) (st sp : bool)
    (path : string) (self : Reporter) (w1 : World) (cs : list Call) :
  wf w →
  (∀ lg, lg ∈ ancestors (canon n) w →
     ∀ p lv, FileHandler p lv ∉ handlers lg) →
  __init__ n (rank m) con st sp true (Some path) w = (Ok self, w1) →
  canon n = (if String.eqb n "" then "root" else n)
  ∧ files w1 !! path = Some (default "" (files w !! path))
  ∧ files (exec (submit_all self cs) w1) !! path
    = Some (persisted (rank m) (canon n) (default "" (files w !! path)) cs)
  ∧ (∀ c, line_breaks n = 0%nat → line_breaks (call_time c) = 0%nat →
          line_breaks (call_message c) = 0%nat →
          line_breaks (file_line (canon n) c) = 1%nat).
Proof.
  intros Hwf Hanc E.
  apply init_success in E as (Hb & -> & ->).
  cbn [andb] in Hb.
  assert (canon n = (if String.eqb n "" then "root" else n)) as Hcanon.
  { unfold canon, is_root_name. destruct (String.eqb_spec n ""); [done|].
    simpl. by destruct (String.eqb_spec n "root"). }
  assert (files (exec (__init__ n (rank m) con st sp true (Some path)) w)
            !! path = Some (default "" (files w !! path))) as Hfile.
  { rewrite init_files, Hb. cbn [andb negb].
    change (default "" (Some path)) with path.
    destruct (files w !! path) eqn:Ef; [done|]. apply lookup_insert_eq. }
  split; [done|]. split; [done|]. split.
  - assert (rank m ≠ 0) as Hm by (pose proof (rank_pos m); lia).
    eapply (submit_all_persists (init_self n con w) (init_console con w) st sp
              (rank m) path (canon n) Hm cs).
    cbn [logger init_self]. rewrite init_the_logger, init_ancestors.
    unfold init_logger. cbn [level lname handlers]. rewrite Hb.
    cbn [andb negb]. change (default "" (Some path)) with path.
    repeat split; try done. by apply the_logger_name.
  - intros c Hn Ht Hmsg. apply file_line_one_line; [|done|done].
    by apply canon_line_breaks.
Qed.

Lemma C9_witness :
  let build := __init__ "filetest" INFO None true false true (Some "app.log") in
  let self := init_self "filetest" None initial_world in
  let calls :=
    [ {| call_level := LInfo; call_message := "Test message 1";
         call_time := "T1" |};
      {| call_level := LDebug; call_message := "noise"; call_time := "T2" |};
      {| call_level := LError; call_message := "Test error";
         call_time := "T3" |} ] in
  files (exec build initial_world) !! "app.log" = Some ""
  ∧ files (exec (submit_all self calls) (exec build initial_world)) !! "app.log"
    = Some (("T1 - filetest - INFO - Test message 1" +:+ terminator)
            +:+ ("T3 - filetest - ERROR - Test error" +:+ terminator)).
Proof.
  intros build self calls.
  assert (∀ lg, lg ∈ ancestors (canon "filetest") initial_world →
            ∀ p lv, FileHandler p lv ∉ handlers lg) as Hanc.
  { intros lg Hlg p lv Hin. apply list_elem_of_singleton in Hlg as ->.
    by apply elem_of_nil in Hin. }
  destruct (C9_admitted_records_are_appended initial_world "filetest"
              LInfo None true false "app.log" self
              (exec build initial_world) calls
              wf_initial_world Hanc eq_refl) as (_ & Hopen & Hlines & _).
  split; [exact Hopen|exact Hlines].
Defined.

(** * Further properties of the class *)

(** ** Construction *)

Lemma init_consoles n lv con st sp efh fp w :
  consoles (exec (__init__ n lv con st sp efh fp) w)
  = match con with Some _ => consoles w | None => S (consoles w) end.
Proof.
  rewrite init_exec.
  set (base := set_heap _ _).
  assert (consoles (exec (getLogger n) base)
          = match con with Some _ => consoles w | None => S (consoles w) end)
    as Hc.
  { destruct (getLogger_frame n base) as (_ & _ & _ & -> & _).
    unfold base. by destruct con. }
  unfold update_logger, put_logger.
  destruct (String.eqb (canon n) "root"); cbn [consoles set_root set_loggerDict];
    (destruct (efh && negb (falsy_path fp))%bool; [|done]);
    unfold exec at 1, open_append, modify; cbn [snd];
    by destruct (files (exec (getLogger n) base) !! default "" fp).
Qed.

(** X1.  A successful construction hands back a Reporter with the given
    name, the given console or a newly created one, and the logger of that
    name; whatever that logger carried before, it now has the given level,
    exactly the handlers of this construction (the console handler, then
    the file handler when one was asked for), and the counting filter of
    the new Reporter. *)
Theorem X1_construction_configures_logger
    (w : World) (n : string) (lv : Z) (con : option nat) (st sp efh : bool)
    (fp : option string) (self : Reporter) (w1 : World) :
  __init__ n lv con st sp efh fp w = (Ok self, w1) →
  name self = n
  ∧ console self = match con with Some c => c | None => consoles w end
  ∧ consoles w1 = match con with Some _ => consoles w | None => S (consoles w) end
  ∧ logger self = canon n
  ∧ level (the_logger (logger self) w1) = lv
  ∧ handlers (the_logger (logger self) w1)
    = RichHandler (console self) st sp lv
        :: (if efh then [FileHandler (default "" fp) lv] else [])
  ∧ self ∈ filters (the_logger (logger self) w1).
Proof.
  intros E. apply init_success in E as (Hb & -> & ->).
  cbn [name console logger init_self init_console].
  rewrite init_consoles, init_the_logger. unfold init_logger.
  cbn [level handlers filters]. rewrite Hb.
  do 5 (split; [done|]). split.
  - destruct efh; [|done]. cbn [andb] in *. by rewrite Hb.
  - destruct (decide (init_self n con w ∈ filters (the_logger (canon n) w)))
      as [Hin|Hout].
    + by rewrite bool_decide_eq_true_2.
    + rewrite bool_decide_eq_false_2 by done.
      apply elem_of_app. right. by apply list_elem_of_singleton.
Qed.

Lemma X1_witness :
  let earlier := exec (__init__ "app" DEBUG (Some 7%nat) true true true
                         (Some "old.log")) initial_world in
  let built := __init__ "app" WARNING None false false false None earlier in
  ∃ self w1,
    built = (Ok self, w1)
    ∧ handlers (the_logger "app" earlier)
      = [RichHandler 7 true true DEBUG; FileHandler "old.log" DEBUG]
    ∧ console self = 0%nat
    ∧ level (the_logger (logger self) w1) = WARNING
    ∧ handlers (the_logger (logger self) w1)
      = [RichHandler (console self) false false WARNING].
Proof.
  intros earlier built.
  assert (built = (Ok (init_self "app" None earlier), snd built)) as E
    by (vm_compute; reflexivity).
  exists (init_self "app" None earlier), (snd built).
  split; [exact E|]. split; [vm_compute; reflexivity|].
  destruct (X1_construction_configures_logger earlier "app" WARNING None
              false false false None _ _ E)
    as (_ & Hc & _ & _ & Hl & Hh & _).
  split; [rewrite Hc; vm_compute; reflexivity|]. split; [exact Hl|exact Hh].
Defined.

(** X2.  A construction that raises for want of a path has by then
    already worked on the logger of that name: the level is the new one
    and the earlier handlers are gone, replaced by one console handler;
    the counting filters are as they were, a dict has been allocated, and
    no file has been touched. *)
Theorem X2_failed_construction_reconfigures_logger
    (w : World) (n : string) (lv : Z) (con : option nat) (st sp : bool)
    (fp : option string) :
  falsy_path fp = true →
  let w1 := exec (__init__ n lv con st sp true fp) w in
  outcome (__init__ n lv con st sp true fp) w
  = Raise (ValueError
             "file_path must be provided when enable_file_handler=True")
  ∧ level (the_logger (canon n) w1) = lv
  ∧ handlers (the_logger (canon n) w1)
    = [RichHandler (match con with Some c => c | None => consoles w end)
         st sp lv]
  ∧ filters (the_logger (canon n) w1) = filters (the_logger (canon n) w)
  ∧ heap w1 = heap w ++ [initial_stats]
  ∧ files w1 = files w.
Proof.
  intros Hbad w1. split; [by apply init_outcome_err|].
  unfold w1. rewrite init_the_logger, init_heap, init_files.
  unfold init_logger. cbn [level handlers filters andb]. by rewrite Hbad.
Qed.

(** After the failed call of the witness, the Reporter built first has
    lost its file handler: its next record reaches no file. *)
Lemma X2_witness :
  let first := init_self "app" (Some 7%nat) initial_world in
  let w := exec (__init__ "app" INFO (Some 7%nat) true false true
                   (Some "app.log")) initial_world in
  let w1 := exec (__init__ "app" INFO None true false true None) w in
  falsy_path None = true
  ∧ handlers (the_logger "app" w)
    = [RichHandler 7 true false INFO; FileHandler "app.log" INFO]
  ∧ handlers (the_logger "app" w1) = [RichHandler 0 true false INFO]
  ∧ files (exec (error first "lost" "T") w1) !! "app.log" = Some "".
Proof.
  intros first w w1. split; [reflexivity|].
  split; [vm_compute; reflexivity|]. split; [|vm_compute; reflexivity].
  destruct (X2_failed_construction_reconfigures_logger w "app" INFO None
              true false None eq_refl) as (_ & _ & Hh & _).
  etrans; [exact Hh|]. vm_compute. reflexivity.
Defined.

(** X3.  Construction, successful or not, prints nothing, leaves the
    name, level, handlers and counting filters of every logger registered
    under another name as they are, keeps every dict that exists, and
    keeps the contents of every file that exists.  (This is about the
    attributes of those loggers only: a logger below the constructed one
    in the hierarchy may inherit from it and propagate to it
    afterwards.) *)
Theorem X3_construction_frame
    (w : World) (n : string) (lv : Z) (con : option nat) (st sp efh : bool)
    (fp : option string) :
  let w1 := exec (__init__ n lv con st sp efh fp) w in
  out w1 = out w
  ∧ (∀ h lg, h ≠ canon n → lookup_logger h w = Some lg →
       ∃ lg1, lookup_logger h w1 = Some lg1
              ∧ lname lg1 = lname lg ∧ level lg1 = level lg
              ∧ handlers lg1 = handlers lg ∧ filters lg1 = filters lg)
  ∧ (∀ (l : nat) d, heap w !! l = Some d → heap w1 !! l = Some d)
  ∧ (∀ p content, files w !! p = Some content → files w1 !! p = Some content).
Proof.
  intros w1. unfold w1. split; [apply init_out|]. split.
  - intros h lg Hne Hl. exists lg. by rewrite init_lookup_other.
  - split.
    + intros l d Hl. rewrite init_heap.
      rewrite lookup_app_l by (by apply lookup_lt_Some in Hl). done.
    + rewrite init_files.
      destruct (efh && negb (falsy_path fp))%bool; [|done].
      destruct (files w !! default "" fp) eqn:Ef; [done|].
      intros p content Hp. rewrite lookup_insert_ne; [done|].
      intros <-. by rewrite Ef in Hp.
Qed.

(** ** The effect of one call on every counter *)

Lemma level_of_rank_some lv L : level_of_rank lv = Some L → lv = rank L.
Proof.
  unfold level_of_rank.
  destruct (Z.eqb_spec lv 10) as [->|?]; [by intros [= <-]|].
  destruct (Z.eqb_spec lv 20) as [->|?]; [by intros [= <-]|].
  destruct (Z.eqb_spec lv 30) as [->|?]; [by intros [= <-]|].
  destruct (Z.eqb_spec lv 40) as [->|?]; [by intros [= <-]|].
  destruct (Z.eqb_spec lv 50) as [->|?]; [by intros [= <-]|]. done.
Qed.

Lemma level_of_rank_none lv : level_of_rank lv = None → ∀ L, lv ≠ rank L.
Proof.
  unfold level_of_rank.
  destruct (Z.eqb_spec lv 10) as [->|?]; [done|].
  destruct (Z.eqb_spec lv 20) as [->|?]; [done|].
  destruct (Z.eqb_spec lv 30) as [->|?]; [done|].
  destruct (Z.eqb_spec lv 40) as [->|?]; [done|].
  destruct (Z.eqb_spec lv 50) as [->|?]; [done|].
  intros _ []; done.
Qed.

Lemma stats_dict_inj cnt cnt' :
  stats_dict cnt = stats_dict cnt' → ∀ L, cnt L = cnt' L.
Proof. unfold stats_dict. intros [= ? ? ? ? ?] []; done. Qed.

(** The counts after one record of numeric level [lv] has been counted. *)
Lemma count_event_self f lv h msg t w hp cnt :
  hp !! _stats f = Some (stats_dict cnt) →
  count_event f (Logger.makeRecord h lv msg t w) hp !! _stats f
  = Some (stats_dict (match level_of_rank lv with
                      | Some L => bump cnt L
                      | None => cnt
                      end)).
Proof.
  intros Hd. destruct (level_of_rank lv) as [L|] eqn:EL.
  - apply level_of_rank_some in EL as ->.
    unfold count_event. rewrite Hd. cbn [levelname Logger.makeRecord].
    rewrite stat_key_levelname, dict_get_stats_dict, dict_set_stats_dict.
    apply list_lookup_insert_eq. by apply lookup_lt_Some in Hd.
  - rewrite (count_event_other_level _ _ _ _ _ _ _ cnt); [done| |done].
    by apply level_of_rank_none.
Qed.

Lemma count_events_cons g fs r hp :
  count_events (g :: fs) r hp = count_events fs r (count_event g r hp).
Proof. done. Qed.

Lemma count_events_once fs f lv h msg t w : ∀ hp cnt,
  NoDup fs → f ∈ fs →
  (∀ g, g ∈ fs → g ≠ f → _stats g ≠ _stats f) →
  hp !! _stats f = Some (stats_dict cnt) →
  count_events fs (Logger.makeRecord h lv msg t w) hp !! _stats f
  = Some (stats_dict (match level_of_rank lv with
                      | Some L => bump cnt L
                      | None => cnt
                      end)).
Proof.
  induction fs as [|g fs IH]; intros hp cnt Hnd Hin Hapart Hd.
  - by apply elem_of_nil in Hin.
  - apply NoDup_cons in Hnd as [Hg Hnd].
    rewrite count_events_cons.
    destruct (decide (g = f)) as [->|Hne].
    + rewrite count_events_other.
      * by apply count_event_self.
      * intros g' Hg'. apply Hapart; [by right|]. by intros ->.
    + apply elem_of_cons in Hin as [->|Hin]; [done|].
      apply IH; [done|done| |].
      * intros g' Hg'. apply Hapart. by right.
      * rewrite count_event_other; [done|]. apply Hapart; [left|done].
Qed.

(** One call through a logger, seen from an attached Reporter: when the
    call passes the gate and the Reporter sits on that logger, its count
    for the level goes up by one; in every other case its counts stay. *)
Lemma log_counts w h lv msg t f cnt :
  tidy w → registered f w →
  heap w !! _stats f = Some (stats_dict cnt) →
  heap (exec (Logger.log h lv msg t) w) !! _stats f
  = Some (stats_dict
            (if (Logger.isEnabledFor h lv w && bool_decide (logger f = h))%bool
             then match level_of_rank lv with
                  | Some L => bump cnt L
                  | None => cnt
                  end
             else cnt)).
Proof.
  intros Ht (hf & lgf & Hlf & Hinf) Hd. pose proof (tidy_wf w Ht) as Hwf.
  pose proof (wf_home w Hwf _ _ _ Hlf Hinf) as Hhome.
  unfold exec. rewrite log_spec. cbn [snd].
  destruct (Logger.isEnabledFor h lv w); [|done]. cbn [andb].
  match goal with |- context [exec (Logger.callHandlers ?a ?b) ?x] =>
    destruct (callHandlers_frame a b x) as (_ & _ & -> & _) end.
  cbn [heap set_heap].
  assert (∀ g, g ∈ filters (the_logger h w) → g ≠ f → _stats g ≠ _stats f)
    as Hapart.
  { intros g Hg Hne Heq. apply Hne.
    apply (wf_inj w Hwf); [|by exists hf, lgf|done].
    exists h, (the_logger h w). split; [by eapply filters_lookup|done]. }
  destruct (decide (logger f = h)) as [<-|Hne].
  - rewrite bool_decide_eq_true_2 by done.
    assert (lookup_logger (logger f) w = Some lgf) as Hl' by by rewrite Hhome.
    assert (the_logger (logger f) w = lgf) as Hthe
      by (unfold the_logger; by rewrite Hl').
    apply count_events_once; [|by rewrite Hthe|done|done].
    rewrite Hthe. by apply (tidy_nodup w Ht (logger f)).
  - rewrite bool_decide_eq_false_2 by done.
    rewrite count_events_other; [done|].
    intros g Hg Heq. destruct (decide (g = f)) as [->|Hgf].
    + apply Hne. apply (wf_home w Hwf h (the_logger h w)); [|done].
      by eapply filters_lookup.
    + by apply (Hapart g).
Qed.

(** ** Worlds in good order *)

Lemma lookup_logger_ext h w w' :
  root w' = root w → loggerDict w' = loggerDict w →
  lookup_logger h w' = lookup_logger h w.
Proof. unfold lookup_logger. by intros -> ->. Qed.

Lemma registered_ext f w w' :
  root w' = root w → loggerDict w' = loggerDict w →
  registered f w' ↔ registered f w.
Proof.
  intros Hr Hd. unfold registered.
  split; intros (h & lg & Hl & Hf); exists h, lg;
    [rewrite <- (lookup_logger_ext h w w')|rewrite (lookup_logger_ext h w w')];
    done.
Qed.

Lemma bump_nonneg cnt L : (∀ L', 0 ≤ cnt L') → ∀ L', 0 ≤ bump cnt L L'.
Proof.
  intros H L'. unfold bump. specialize (H L').
  destruct (bool_decide (L' = L)); lia.
Qed.

Lemma bump_ge cnt L L' : cnt L' ≤ bump cnt L L'.
Proof. unfold bump. destruct (bool_decide (L' = L)); lia. Qed.

Lemma tidy_initial_world : tidy initial_world.
Proof.
  assert (∀ h lg, lookup_logger h initial_world = Some lg → filters lg = [])
    as Hnil.
  { intros h lg. unfold lookup_logger. simpl.
    destruct (String.eqb h "root"); [by intros [= <-]|].
    by rewrite lookup_empty. }
  split; [apply wf_initial_world| |].
  - intros h lg Hl. rewrite (Hnil _ _ Hl). apply NoDup_nil_2.
  - intros f cnt (h & lg & Hl & Hf). rewrite (Hnil _ _ Hl) in Hf.
    by apply elem_of_nil in Hf.
Qed.

Lemma nodup_the_logger h w : tidy w → NoDup (filters (the_logger h w)).
Proof.
  intros Ht. unfold the_logger.
  destruct (lookup_logger h w) as [lg|] eqn:E; [|apply NoDup_nil_2].
  by apply (tidy_nodup w Ht h).
Qed.

Lemma init_registered n lv con st sp efh fp w f :
  registered f (exec (__init__ n lv con st sp efh fp) w) →
  f = init_self n con w ∨ registered f w.
Proof.
  intros (h & lg & Hl & Hf).
  destruct (init_filters_origin _ _ _ _ _ _ _ _ _ _ _ Hl Hf)
    as [[-> _]|(lg0 & Hl0 & Hf0 & _)]; [by left|right].
  by exists h, lg0.
Qed.

Lemma tidy_init n lv con st sp efh fp w :
  tidy w → tidy (exec (__init__ n lv con st sp efh fp) w).
Proof.
  intros Ht. pose proof (tidy_wf w Ht) as Hwf.
  split; [by apply wf_init| |].
  - intros h lg Hl. destruct (decide (h = canon n)) as [->|Hne].
    + rewrite init_lookup in Hl. injection Hl as <-.
      unfold init_logger. cbn [filters].
      pose proof (nodup_the_logger (canon n) w Ht) as Hnd.
      destruct (efh && falsy_path fp)%bool; [done|].
      destruct (decide (init_self n con w ∈ filters (the_logger (canon n) w)))
        as [Hin|Hout].
      * by rewrite bool_decide_eq_true_2.
      * rewrite bool_decide_eq_false_2 by done.
        apply NoDup_app. split; [done|]. split; [|apply NoDup_singleton].
        intros g Hg ->%list_elem_of_singleton. done.
    + rewrite init_lookup_other in Hl by done. by apply (tidy_nodup w Ht h).
  - intros f cnt Hreg Hd. rewrite init_heap in Hd.
    apply init_registered in Hreg as [->|Hreg].
    + cbn [_stats init_self] in Hd. rewrite list_lookup_middle in Hd by done.
      apply (inj Some) in Hd. intros L.
      change initial_stats with (stats_dict (λ _, 0)) in Hd.
      by rewrite <- (stats_dict_inj _ _ Hd L).
    + assert (_stats f < length (heap w))%nat as Hlt.
      { destruct Hreg as (h & lg & Hl & Hf). by eapply wf_alloc. }
      rewrite lookup_app_l in Hd by done. by apply (tidy_nonneg w Ht f).
Qed.

Lemma tidy_log h lv msg t w : tidy w → tidy (exec (Logger.log h lv msg t) w).
Proof.
  intros Ht. pose proof (tidy_wf w Ht) as Hwf.
  destruct (log_frame h lv msg t w) as (Hr & Hd & _ & _).
  split; [by apply wf_log| |].
  - intros h' lg. rewrite (lookup_logger_ext _ _ _ Hr Hd).
    apply (tidy_nodup w Ht).
  - intros f cnt Hreg Hf. apply (registered_ext _ _ _ Hr Hd) in Hreg.
    destruct Hreg as (hf & lgf & Hlf & Hinf).
    destruct (wf_dict w Hwf _ _ _ Hlf Hinf) as (cnt0 & H0).
    assert (registered f w) as Hreg by by exists hf, lgf.
    pose proof (tidy_nonneg w Ht f cnt0 Hreg H0) as Hpos.
    rewrite (log_counts w h lv msg t f cnt0 Ht Hreg H0) in Hf.
    apply (inj Some) in Hf. intros L. rewrite <- (stats_dict_inj _ _ Hf L).
    destruct (_ && _)%bool; [|done].
    destruct (level_of_rank lv); [by apply bump_nonneg|done].
Qed.

(** A step that only allocates keeps good order. *)
Lemma tidy_alloc w w' d :
  tidy w → root w' = root w → loggerDict w' = loggerDict w →
  heap w' = heap w ++ [d] → tidy w'.
Proof.
  intros Ht Hr Hd Hh. pose proof (tidy_wf w Ht) as Hwf. split.
  - apply (wf_same_registry w); [done..|].
    intros l cnt Hl. exists cnt. rewrite Hh.
    rewrite lookup_app_l by (by apply lookup_lt_Some in Hl). done.
  - intros h lg. rewrite (lookup_logger_ext _ _ _ Hr Hd).
    apply (tidy_nodup w Ht).
  - intros f cnt Hreg Hf. apply (registered_ext _ _ _ Hr Hd) in Hreg.
    assert (_stats f < length (heap w))%nat as Hlt.
    { destruct Hreg as (h & lg & Hl & Hin). by eapply wf_alloc. }
    rewrite Hh, lookup_app_l in Hf by done. by apply (tidy_nonneg w Ht f).
Qed.

Lemma tidy_step w w' : tidy w → step w w' → tidy w'.
Proof.
  intros Ht Hstep. destruct Hstep.
  - by apply tidy_init.
  - rewrite submit_log. by apply tidy_log.
  - by apply tidy_log.
  - by apply (tidy_alloc w _ (stats_of self w)).
  - by apply (tidy_alloc w _ (stats_of self w)).
Qed.

Lemma reachable_tidy w : reachable w → tidy w.
Proof.
  induction 1 as [|w w' _ IH Hstep]; [apply tidy_initial_world|].
  by apply (tidy_step w).
Qed.

Lemma init_registered_mono n lv con st sp efh fp w f :
  registered f w → registered f (exec (__init__ n lv con st sp efh fp) w).
Proof.
  intros (h & lg & Hl & Hf). destruct (decide (h = canon n)) as [->|Hne].
  - exists (canon n), (init_logger lv (init_console con w) st sp efh fp
                         (init_self n con w) (the_logger (canon n) w)).
    split; [apply init_lookup|].
    assert (f ∈ filters (the_logger (canon n) w)) as Hin
      by (unfold the_logger; by rewrite Hl).
    unfold init_logger. cbn [filters].
    destruct (efh && falsy_path fp)%bool; [done|].
    destruct (bool_decide _); [done|]. apply elem_of_app. by left.
  - exists h, lg. by rewrite init_lookup_other.
Qed.

Lemma level_of_rank_rank L : level_of_rank (rank L) = Some L.
Proof. by destruct L. Qed.

(** X4.  What one leveled call does to the counters of any attached
    Reporter, in a world reached by the class, when the logger the call is
    made on has a level of its own (not 0): if the rank of the call
    reaches that level and the Reporter's filter sits on that logger, the
    Reporter's count for the level of the call goes up by exactly one;
    otherwise the Reporter's counts are unchanged. *)
Theorem X4_one_call_on_every_counter
    (w : World) (caller f : Reporter) (c : Call) (cnt : Level → Z) :
  reachable w →
  registered f w →
  level (the_logger (logger caller) w) ≠ 0 →
  snapshot f w = Some (stats_dict cnt) →
  snapshot f (exec (submit caller c) w)
  = Some (stats_dict
            (if ((rank (call_level c) >=? level (the_logger (logger caller) w))
                 && bool_decide (logger f = logger caller))%bool
             then bump cnt (call_level c) else cnt)).
Proof.
  intros Hreach Hreg Hset Hs.
  rewrite snapshot_stats in Hs. apply (inj Some) in Hs.
  assert (heap w !! _stats f = Some (stats_dict cnt)) as Hd.
  { destruct Hreg as (h & lg & Hl & Hf).
    destruct (wf_dict w (reachable_wf w Hreach) _ _ _ Hl Hf) as (cnt0 & H0).
    unfold stats_of in Hs. rewrite H0 in Hs. cbn in Hs. by rewrite H0, Hs. }
  rewrite snapshot_stats, submit_log. unfold stats_of.
  rewrite (log_counts w _ _ _ _ f cnt (reachable_tidy w Hreach) Hreg Hd).
  rewrite isEnabledFor_own by (auto using rank_pos).
  by rewrite level_of_rank_rank.
Qed.

Lemma X4_witness :
  let build := __init__ "app" INFO None true false false None in
  let first := init_self "app" None initial_world in
  let w1 := exec build initial_world in
  let second := init_self "app" None w1 in
  let w2 := exec build w1 in
  let c := {| call_level := LError; call_message := "bad"; call_time := "t" |} in
  reachable w2
  ∧ registered first w2
  ∧ level (the_logger (logger second) w2) ≠ 0
  ∧ snapshot first w2 = Some (stats_dict (λ _, 0))
  ∧ snapshot first (exec (submit second c) w2)
    = Some [("debug", 0); ("info", 0); ("warning", 0); ("error", 1);
            ("critical", 0)].
Proof.
  intros build first w1 second w2 c.
  assert (reachable w2) as Hreach.
  { apply (reachable_step w1); [|apply step_init].
    apply (reachable_step initial_world); [apply reachable_initial|].
    apply step_init. }
  assert (registered first w2) as Hreg.
  { apply init_registered_mono.
    exists "app", (the_logger "app" w1). split; [vm_compute; reflexivity|].
    vm_compute. left. }
  assert (level (the_logger (logger second) w2) ≠ 0) as Hset
    by (by vm_compute).
  assert (snapshot first w2 = Some (stats_dict (λ _, 0))) as Hs
    by (vm_compute; reflexivity).
  split; [exact Hreach|]. split; [exact Hreg|]. split; [exact Hset|].
  split; [exact Hs|].
  etrans; [exact (X4_one_call_on_every_counter w2 second first c _
                    Hreach Hreg Hset Hs)|].
  vm_compute. reflexivity.
Defined.

(** X5.  In every world reached by the class, the mapping that
    [get_stats] returns for an attached Reporter has exactly the five keys
    debug, info, warning, error, critical, in that order, and no count is
    negative. *)
Theorem X5_counts_have_five_keys_and_are_nonnegative
    (w : World) (f : Reporter) :
  reachable w →
  registered f w →
  ∃ cnt, snapshot f w = Some (stats_dict cnt) ∧ ∀ L, 0 ≤ cnt L.
Proof.
  intros Hreach Hreg. pose proof (reachable_tidy w Hreach) as Ht.
  destruct Hreg as (h & lg & Hl & Hf).
  destruct (wf_dict w (tidy_wf w Ht) _ _ _ Hl Hf) as (cnt & Hd).
  exists cnt. split.
  - rewrite snapshot_stats. unfold stats_of. by rewrite Hd.
  - apply (tidy_nonneg w Ht f); [by exists h, lg|done].
Qed.

Lemma X5_witness :
  let self := init_self "app" None initial_world in
  let w1 := exec (__init__ "app" INFO None true false false None)
              initial_world in
  let w2 := exec (submit self {| call_level := LWarning;
                                 call_message := "m"; call_time := "t" |}) w1 in
  reachable w2
  ∧ registered self w2
  ∧ ∃ cnt, snapshot self w2 = Some (stats_dict cnt) ∧ ∀ L, 0 ≤ cnt L.
Proof.
  intros self w1 w2.
  assert (reachable w2) as Hreach.
  { apply (reachable_step w1); [|apply step_submit].
    apply (reachable_step initial_world); [apply reachable_initial|].
    apply step_init. }
  assert (registered self w2) as Hreg.
  { exists "app", (the_logger "app" w2). split; [vm_compute; reflexivity|].
    vm_compute. left. }
  split; [exact Hreach|]. split; [exact Hreg|].
  exact (X5_counts_have_five_keys_and_are_nonnegative w2 self Hreach Hreg).
Defined.

Lemma step_registered w w' f : step w w' → registered f w → registered f w'.
Proof.
  intros Hstep Hreg. destruct Hstep.
  - by apply init_registered_mono.
  - rewrite submit_log.
    destruct (log_frame (logger self) (rank (call_level c)) (call_message c)
                (call_time c) w) as (Hr & Hd & _ & _).
    by apply (registered_ext _ _ _ Hr Hd).
  - destruct (log_frame h lv msg t w) as (Hr & Hd & _ & _).
    by apply (registered_ext _ _ _ Hr Hd).
  - by apply (registered_ext f w (exec (get_stats self) w)).
  - by apply (registered_ext f w (exec (report self title) w)).
Qed.

Lemma step_counts w w' f cnt :
  tidy w → step w w' → registered f w →
  heap w !! _stats f = Some (stats_dict cnt) →
  ∃ cnt', heap w' !! _stats f = Some (stats_dict cnt') ∧ ∀ L, cnt L ≤ cnt' L.
Proof.
  intros Ht Hstep Hreg Hd.
  assert (∀ d, heap w' = heap w ++ [d] →
            ∃ cnt', heap w' !! _stats f = Some (stats_dict cnt')
                    ∧ ∀ L, cnt L ≤ cnt' L) as Halloc.
  { intros d ->. exists cnt.
    rewrite lookup_app_l by (by apply lookup_lt_Some in Hd). done. }
  assert (∀ h lv msg t, w' = exec (Logger.log h lv msg t) w →
            ∃ cnt', heap w' !! _stats f = Some (stats_dict cnt')
                    ∧ ∀ L, cnt L ≤ cnt' L) as Hlog.
  { intros h lv msg t ->. rewrite (log_counts w h lv msg t f cnt Ht Hreg Hd).
    eexists. split; [done|]. intros L.
    destruct (_ && _)%bool; [|done].
    destruct (level_of_rank lv); [apply bump_ge|done]. }
  destruct Hstep.
  - apply (Halloc initial_stats), init_heap.
  - apply (Hlog (logger self) (rank (call_level c)) (call_message c)
             (call_time c)). by rewrite submit_log.
  - by apply (Hlog h lv msg t).
  - by apply (Halloc (stats_of self w)).
  - by apply (Halloc (stats_of self w)).
Qed.

(** X6.  Nothing the class does detaches a counting filter or lowers a
    count: across any one operation (a construction under any name, a
    call, a snapshot, a report) an attached Reporter stays attached and
    each of its five counts stays the same or grows. *)
Theorem X6_counters_only_grow
    (w w' : World) (f : Reporter) (cnt : Level → Z) :
  reachable w →
  step w w' →
  registered f w →
  snapshot f w = Some (stats_dict cnt) →
  registered f w'
  ∧ ∃ cnt', snapshot f w' = Some (stats_dict cnt') ∧ ∀ L, cnt L ≤ cnt' L.
Proof.
  intros Hreach Hstep Hreg Hs. split; [by apply (step_registered w)|].
  rewrite snapshot_stats in Hs. apply (inj Some) in Hs.
  assert (heap w !! _stats f = Some (stats_dict cnt)) as Hd.
  { destruct Hreg as (h & lg & Hl & Hf).
    destruct (wf_dict w (reachable_wf w Hreach) _ _ _ Hl Hf) as (cnt0 & H0).
    unfold stats_of in Hs. rewrite H0 in Hs. cbn in Hs. by rewrite H0, Hs. }
  destruct (step_counts w w' f cnt (reachable_tidy w Hreach) Hstep Hreg Hd)
    as (cnt' & Hd' & Hle).
  exists cnt'. split; [|done]. rewrite snapshot_stats. unfold stats_of.
  by rewrite Hd'.
Qed.

Lemma X6_witness :
  let build := __init__ "app" INFO None true false false None in
  let first := init_self "app" None initial_world in
  let w1 := exec build initial_world in
  let w2 := exec (__init__ "app" ERROR None true false false None) w1 in
  reachable w1
  ∧ step w1 w2
  ∧ registered first w1
  ∧ snapshot first w1 = Some (stats_dict (λ _, 0))
  ∧ registered first w2
  ∧ ∃ cnt', snapshot first w2 = Some (stats_dict cnt') ∧ ∀ L, 0 ≤ cnt' L.
Proof.
  intros build first w1 w2.
  assert (reachable w1) as Hreach.
  { apply (reachable_step initial_world); [apply reachable_initial|].
    apply step_init. }
  assert (step w1 w2) as Hstep by apply step_init.
  assert (registered first w1) as Hreg.
  { exists "app", (the_logger "app" w1). split; [vm_compute; reflexivity|].
    vm_compute. left. }
  assert (snapshot first w1 = Some (stats_dict (λ _, 0))) as Hs
    by (vm_compute; reflexivity).
  split; [exact Hreach|]. split; [exact Hstep|]. split; [exact Hreg|].
  split; [exact Hs|].
  exact (X6_counters_only_grow w1 w2 first (λ _, 0) Hreach Hstep Hreg Hs).
Defined.

(** ** Snapshots are point-in-time *)

Lemma step_keeps_unattached w w' (l : nat) d :
  tidy w → step w w' →
  heap w !! l = Some d →
  (∀ f, registered f w → _stats f ≠ l) →
  heap w' !! l = Some d ∧ (∀ f, registered f w' → _stats f ≠ l).
Proof.
  intros Ht Hstep Hl Hfree.
  pose proof (lookup_lt_Some _ _ _ Hl) as Hlt.
  assert (∀ h lv msg t,
            heap (exec (Logger.log h lv msg t) w) !! l = Some d
            ∧ (∀ f, registered f (exec (Logger.log h lv msg t) w) →
                 _stats f ≠ l)) as Hlog.
  { intros h lv msg t.
    destruct (log_frame h lv msg t w) as (Hr & Hd & _ & _). split.
    - unfold exec. rewrite log_spec. cbn [snd].
      destruct (Logger.isEnabledFor h lv w); [|done].
      match goal with |- context [exec (Logger.callHandlers ?a ?b) ?x] =>
        destruct (callHandlers_frame a b x) as (_ & _ & -> & _) end.
      cbn [heap set_heap]. rewrite count_events_other; [done|].
      intros f Hf. apply Hfree. exists h, (the_logger h w).
      split; [by eapply filters_lookup|done].
    - intros f Hf. apply Hfree. by apply (registered_ext _ _ _ Hr Hd). }
  destruct Hstep.
  - split.
    + rewrite init_heap, lookup_app_l by done. done.
    + intros f [->|Hf]%init_registered; [|by apply Hfree].
      cbn [_stats init_self]. lia.
  - rewrite submit_log. apply Hlog.
  - apply Hlog.
  - split.
    + unfold exec. rewrite get_stats_spec. cbn [snd heap set_heap].
      by rewrite lookup_app_l.
    + intros f Hf. apply Hfree.
      by apply (registered_ext f w (exec (get_stats self) w)).
  - split; [by apply report_keeps|].
    intros f Hf. apply Hfree.
    by apply (registered_ext f w (exec (report self title) w)).
Qed.

Lemma steps_keep_unattached w w' (l : nat) d :
  rtc step w w' →
  tidy w → heap w !! l = Some d →
  (∀ f, registered f w → _stats f ≠ l) →
  heap w' !! l = Some d.
Proof.
  induction 1 as [w|w w1 w' Hstep _ IH]; intros Ht Hl Hfree; [done|].
  destruct (step_keeps_unattached w w1 l d Ht Hstep Hl Hfree) as (Hl1 & Hfree1).
  apply IH; [by apply (tidy_step w)|done|done].
Qed.

(** X7.  A dict handed out by [get_stats] is a point-in-time copy: the
    class never writes to it again.  Whatever constructions, calls,
    snapshots and reports follow, it still holds the counts of the moment
    it was taken. *)
Theorem X7_snapshot_is_never_updated
    (w w' : World) (self : Reporter) :
  reachable w →
  rtc step (exec (get_stats self) w) w' →
  outcome (get_stats self) w = Ok (length (heap w))
  ∧ heap w' !! length (heap w) = Some (stats_of self w).
Proof.
  intros Hreach Hsteps. split; [done|].
  pose proof (reachable_tidy w Hreach) as Ht.
  apply (steps_keep_unattached (exec (get_stats self) w)); [done| | |].
  - apply (tidy_step w); [done|apply step_get_stats].
  - apply get_stats_lookup.
  - intros f Hf.
    apply (registered_ext f w (exec (get_stats self) w)) in Hf; [|done..].
    destruct Hf as (h & lg & Hl & Hin).
    pose proof (wf_alloc w h lg f (tidy_wf w Ht) Hl Hin). lia.
Qed.

Lemma X7_witness :
  let self := init_self "app" None initial_world in
  let w := exec (__init__ "app" INFO None true false false None)
             initial_world in
  let c := {| call_level := LInfo; call_message := "later";
              call_time := "t" |} in
  let taken := exec (get_stats self) w in
  let w' := exec (submit self c) taken in
  reachable w
  ∧ rtc step taken w'
  ∧ snapshot self w'
    = Some [("debug", 0); ("info", 1); ("warning", 0); ("error", 0);
            ("critical", 0)]
  ∧ heap w' !! length (heap w)
    = Some [("debug", 0); ("info", 0); ("warning", 0); ("error", 0);
            ("critical", 0)].
Proof.
  intros self w c taken w'.
  assert (reachable w) as Hreach.
  { apply (reachable_step initial_world); [apply reachable_initial|].
    apply step_init. }
  assert (rtc step taken w') as Hsteps
    by (apply rtc_once, step_submit).
  split; [exact Hreach|]. split; [exact Hsteps|].
  split; [vm_compute; reflexivity|].
  etrans; [exact (proj2 (X7_snapshot_is_never_updated w w' self Hreach Hsteps))|].
  vm_compute. reflexivity.
Defined.

(** ** What a call puts on the consoles *)

Lemma handle_each_out hs r : ∀ w,
  out (Logger.handle_each hs r w) = out w ++ console_events hs r.
Proof.
  induction hs as [|hdlr hs IH]; intros w; cbn [Logger.handle_each].
  - by rewrite app_nil_r.
  - rewrite IH. unfold console_events. cbn [flat_map].
    destruct hdlr as [c st sp lv|p lv]; cbn [handler_level].
    + destruct (levelno r >=? lv); [|done].
      cbn [Logger.emit out set_out]. by rewrite <- app_assoc.
    + by destruct (levelno r >=? lv).
Qed.

Lemma concat_handlers_nil (lgs : list Logger) :
  (∀ lg, lg ∈ lgs → handlers lg = []) → concat (map handlers lgs) = [].
Proof.
  induction lgs as [|lg lgs IH]; intros H; [done|]. cbn [map concat].
  rewrite (H lg) by left. apply IH. intros lg' Hlg'. apply H. by right.
Qed.

Lemma console_events_rich c st sp lv hs r :
  console_events (RichHandler c st sp lv :: hs) r
  = (if levelno r >=? lv then [ELog c r] else []) ++ console_events hs r.
Proof. done. Qed.

Section rendering.
Context (self : Reporter) (c0 : nat) (st sp : bool) (m : Z)
        (logger_name : string) (tail : list Handler).
Hypothesis m_set : m ≠ 0.
Hypothesis tail_silent : ∀ r, console_events tail r = [].

(** What the calls on [self] keep true: its logger has level [m], the
    name [logger_name], the console handler of [__init__] first and no
    other console handler; no ancestor has a handler; the consoles have
    shown [trace]. *)
Let holds (trace : list Event) (w : World) : Prop :=
  level (the_logger (logger self) w) = m
  ∧ lname (the_logger (logger self) w) = logger_name
  ∧ handlers (the_logger (logger self) w) = RichHandler c0 st sp m :: tail
  ∧ (∀ lg, lg ∈ ancestors (logger self) w → handlers lg = [])
  ∧ out w = trace.

Lemma submit_renders trace c w :
  holds trace w →
  holds (if admitted m c then trace ++ [ELog c0 (call_record logger_name c)]
         else trace)
        (exec (submit self c) w).
Proof.
  intros (Hlv & Hnm & Hhs & Hanc & Ho). rewrite submit_log.
  destruct (log_frame (logger self) (rank (call_level c)) (call_message c)
              (call_time c) w) as (Hr & Hl & _ & _).
  unfold holds.
  rewrite (the_logger_ext _ _ _ Hr Hl), (ancestors_ext _ _ _ Hr Hl).
  do 4 (split; [done|]). clear Hr Hl.
  unfold exec. rewrite log_spec. cbn [snd].
  rewrite isEnabledFor_own by (rewrite ?Hlv; auto using rank_pos).
  rewrite Hlv. fold (admitted m c). destruct (admitted m c) eqn:Hadm; [|done].
  unfold exec, Logger.callHandlers, modify. cbn [snd].
  set (w' := set_heap _ w).
  assert (the_logger (logger self) w' = the_logger (logger self) w) as ->
    by done.
  assert (ancestors (logger self) w' = ancestors (logger self) w) as ->
    by done.
  cbn [map concat]. rewrite Hhs, (concat_handlers_nil _ Hanc), app_nil_r.
  rewrite handle_each_out, console_events_rich, tail_silent, app_nil_r.
  cbn [levelno Logger.makeRecord]. unfold admitted in Hadm. rewrite Hadm.
  subst w'. cbn [out set_heap]. rewrite Ho. do 2 f_equal.
  unfold Logger.makeRecord, call_record. by rewrite Hnm, levelname_upper.
Qed.

Lemma submit_all_renders cs : ∀ trace w,
  holds trace w →
  holds (trace ++ map (λ c, ELog c0 (call_record logger_name c))
                     (List.filter (admitted m) cs))
        (exec (submit_all self cs) w).
Proof.
  induction cs as [|c cs IH]; intros trace w H.
  - cbn [List.filter map]. by rewrite app_nil_r.
  - cbn [submit_all List.filter]. unfold exec, bind.
    destruct (submit self c w) as [[[]|e] w'] eqn:E.
    + pose proof (submit_renders trace c w H) as H'.
      unfold exec in H'. rewrite E in H'. cbn [snd] in H'.
      apply IH in H'. destruct (admitted m c); [|done].
      cbn [map]. by rewrite <- app_assoc in H'.
    + rewrite submit_log, log_spec in E. done.
Qed.
End rendering.

(** X8.  A Reporter constructed under a name whose ancestor loggers have
    no handlers (as in a fresh interpreter): a sequence of leveled calls
    on it puts on the consoles exactly one rendering per admitted call, on
    the Reporter's own console and in the order of the calls, and nothing
    for the calls below its level. *)
Theorem X8_admitted_calls_are_rendered_once
    (w : World) (n : string) (m : Level) (con : option nat)
    (st sp efh : bool) (fp : option string)
    (self : Reporter) (w1 : World) (cs : list Call) :
  wf w →
  (∀ lg, lg ∈ ancestors (canon n) w → handlers lg = []) →
  __init__ n (rank m) con st sp efh fp w = (Ok self, w1) →
  out (exec (submit_all self cs) w1)
  = out w ++ map (λ c, ELog (console self) (call_record (canon n) c))
                 (List.filter (admitted (rank m)) cs).
Proof.
  intros Hwf Hanc E. apply init_success in E as (Hb & -> & ->).
  assert (rank m ≠ 0) as Hm by (pose proof (rank_pos m); lia).
  eapply (submit_all_renders (init_self n con w) (init_console con w) st sp
            (rank m) (canon n)
            (if (efh && negb (falsy_path fp))%bool
             then [FileHandler (default "" fp) (rank m)] else [])
            Hm).
  - intros r. by destruct (efh && negb (falsy_path fp))%bool.
  - cbn [logger init_self]. rewrite init_the_logger, init_ancestors, init_out.
    unfold init_logger. cbn [level lname handlers].
    repeat split; try done. by apply the_logger_name.
Qed.

Lemma X8_witness :
  let build := __init__ "app" WARNING (Some 3%nat) true false true
                 (Some "app.log") in
  let self := init_self "app" (Some 3%nat) initial_world in
  let calls :=
    [ {| call_level := LInfo; call_message := "quiet"; call_time := "T1" |};
      {| call_level := LError; call_message := "loud"; call_time := "T2" |} ] in
  out (exec (submit_all self calls) (exec build initial_world))
  = [ELog 3 {| rec_name := "app"; levelno := ERROR; levelname := "ERROR";
               message := "loud"; asctime := "T2" |}].
Proof.
  intros build self calls.
  assert (∀ lg, lg ∈ ancestors (canon "app") initial_world → handlers lg = [])
    as Hanc by (by intros lg ->%list_elem_of_singleton).
  exact (X8_admitted_calls_are_rendered_once initial_world "app" LWarning
           (Some 3%nat) true false true (Some "app.log") self
           (exec build initial_world) calls wf_initial_world Hanc eq_refl).
Defined.

(** ** Without the file handler *)

Lemma log_files_without_file_handlers h lv msg t w :
  (∀ p lv', FileHandler p lv' ∉ handlers (the_logger h w)) →
  (∀ lg, lg ∈ ancestors h w → ∀ p lv', FileHandler p lv' ∉ handlers lg) →
  files (exec (Logger.log h lv msg t) w) = files w.
Proof.
  intros Hown Hanc. unfold exec. rewrite log_spec. cbn [snd].
  destruct (Logger.isEnabledFor h lv w); [|done].
  unfold exec, Logger.callHandlers, modify. cbn [snd].
  set (w' := set_heap _ w).
  assert (the_logger h w' = the_logger h w) as -> by done.
  assert (ancestors h w' = ancestors h w) as -> by done.
  set (hs := concat _).
  assert (files (Logger.handle_each hs (Logger.makeRecord h lv msg t w) w')
          = files w) as Hf.
  { rewrite handle_each_files; [done|]. subst hs. cbn [map concat].
    intros p lv' [Hin|Hin]%elem_of_app; [by apply (Hown p lv')|].
    by apply (no_file_concat _ Hanc p lv'). }
  destruct hs; [|done]. by destruct (_ >=? _).
Qed.

Lemma submit_all_files_without_file_handlers self cs : ∀ w,
  (∀ p lv', FileHandler p lv' ∉ handlers (the_logger (logger self) w)) →
  (∀ lg, lg ∈ ancestors (logger self) w →
     ∀ p lv', FileHandler p lv' ∉ handlers lg) →
  files (exec (submit_all self cs) w) = files w.
Proof.
  induction cs as [|c cs IH]; intros w Hown Hanc; [done|].
  cbn [submit_all]. unfold exec, bind.
  destruct (submit self c w) as [[[]|e] w'] eqn:E.
  - assert (w' = exec (submit self c) w) as -> by (unfold exec; by rewrite E).
    rewrite submit_log in *.
    destruct (log_frame (logger self) (rank (call_level c)) (call_message c)
                (call_time c) w) as (Hr & Hl & _ & _).
    fold (exec (submit_all self cs)
            (exec (Logger.log (logger self) (rank (call_level c))
                     (call_message c) (call_time c)) w)).
    rewrite IH.
    + by apply log_files_without_file_handlers.
    + by rewrite (the_logger_ext _ _ _ Hr Hl).
    + by rewrite (ancestors_ext _ _ _ Hr Hl).
  - rewrite submit_log, log_spec in E. done.
Qed.

(** X9.  Without [enable_file_handler] the class opens and writes no
    file, whatever [file_path] is given: when no ancestor logger has a
    file handler, the files after construction and after any sequence of
    leveled calls are the files as they were. *)
Theorem X9_no_file_unless_enabled
    (w : World) (n : string) (lv : Z) (con : option nat) (st sp : bool)
    (fp : option string) (self : Reporter) (w1 : World) (cs : list Call) :
  (∀ lg, lg ∈ ancestors (canon n) w →
     ∀ p lv', FileHandler p lv' ∉ handlers lg) →
  __init__ n lv con st sp false fp w = (Ok self, w1) →
  files w1 = files w
  ∧ files (exec (submit_all self cs) w1) = files w.
Proof.
  intros Hanc E. apply init_success in E as (_ & -> & ->).
  assert (files (exec (__init__ n lv con st sp false fp) w) = files w) as Hf
    by by rewrite init_files.
  split; [done|]. rewrite submit_all_files_without_file_handlers; [done| |].
  - cbn [logger init_self]. rewrite init_the_logger. unfold init_logger.
    cbn [handlers andb]. intros p lv' Hin%list_elem_of_singleton. done.
  - cbn [logger init_self]. by rewrite init_ancestors.
Qed.

Lemma X9_witness :
  let build := __init__ "app" DEBUG None true false false (Some "ignored.log") in
  let self := init_self "app" None initial_world in
  let calls :=
    [ {| call_level := LCritical; call_message := "m"; call_time := "t" |} ] in
  files (exec build initial_world) = ∅
  ∧ files (exec (submit_all self calls) (exec build initial_world)) = ∅.
Proof.
  intros build self calls.
  assert (∀ lg, lg ∈ ancestors (canon "app") initial_world →
            ∀ p lv', FileHandler p lv' ∉ handlers lg) as Hanc.
  { intros lg ->%list_elem_of_singleton p lv' Hin.
    by apply elem_of_nil in Hin. }
  exact (X9_no_file_unless_enabled initial_world "app" DEBUG None true false
           (Some "ignored.log") self (exec build initial_world) calls
           Hanc eq_refl).
Defined.

(** ** Any integer level *)

Section counting_any_level.
Context (self : Reporter) (others : list Reporter) (e : Z).
Hypothesis others_apart : ∀ f, f ∈ others → _stats f ≠ _stats self.

(** As in the section on counting, with the gate given by the effective
    level [e] of the logger, whether set on it or inherited. *)
Let holds (cnt : Level → Z) (w : World) : Prop :=
  Logger.getEffectiveLevel (logger self) w = e
  ∧ filters (the_logger (logger self) w) = others ++ [self]
  ∧ heap w !! _stats self = Some (stats_dict cnt).

Lemma submit_holds_effective cnt c w :
  holds cnt w →
  holds (if admitted e c then bump cnt (call_level c) else cnt)
        (exec (submit self c) w).
Proof.
  intros (Hlv & Hfs & Hd). rewrite submit_log.
  destruct (log_frame (logger self) (rank (call_level c)) (call_message c)
              (call_time c) w) as (Hr & Hl & _ & _).
  unfold holds, Logger.getEffectiveLevel.
  rewrite (the_logger_ext _ _ _ Hr Hl), (ancestors_ext _ _ _ Hr Hl).
  split; [done|]. split; [done|]. clear Hr Hl.
  unfold exec. rewrite log_spec. cbn [snd].
  assert (Logger.isEnabledFor (logger self) (rank (call_level c)) w
          = admitted e c) as ->.
  { unfold Logger.isEnabledFor, admitted. rewrite Hlv.
    pose proof (rank_pos (call_level c)).
    destruct (Z.geb_spec 0 (rank (call_level c))); [lia|done]. }
  destruct (admitted e c); [|done].
  match goal with |- context [exec (Logger.callHandlers ?a ?b) ?x] =>
    destruct (callHandlers_frame a b x) as (_ & _ & -> & _) end.
  cbn [heap set_heap]. rewrite Hfs, count_events_app.
  unfold count_events at 1. cbn [fold_left].
  unfold count_event at 1.
  rewrite count_events_other by done. rewrite Hd.
  cbn [levelname Logger.makeRecord].
  rewrite stat_key_levelname, dict_get_stats_dict, dict_set_stats_dict.
  apply list_lookup_insert_eq. rewrite count_events_length.
  by apply lookup_lt_Some in Hd.
Qed.

Lemma submit_all_holds_effective cs : ∀ cnt w,
  holds cnt w → holds (tally e cnt cs) (exec (submit_all self cs) w).
Proof.
  induction cs as [|c cs IH]; intros cnt w H; [done|].
  simpl. unfold exec, bind.
  destruct (submit self c w) as [[[]|ex] w'] eqn:E.
  - apply IH. pose proof (submit_holds_effective cnt c w H) as H'.
    unfold exec in H'. by rewrite E in H'.
  - rewrite submit_log, log_spec in E. done.
Qed.
End counting_any_level.

Lemma get_no_dot s : contains_dot s = false → ∀ k, String.get k s ≠ Some "."%char.
Proof.
  induction s as [|ch s IH]; intros Hs k; [by destruct k|].
  cbn [contains_dot] in Hs. apply orb_false_elim in Hs as [Hch Hs].
  destruct k as [|k]; cbn [String.get].
  - intros [= ->]. done.
  - by apply IH.
Qed.

Lemma dotted_prefixes_no_dot s : contains_dot s = false → dotted_prefixes s = [].
Proof.
  intros Hs. unfold dotted_prefixes.
  induction (String.length s - 1)%nat as [|k IH]; [done|].
  cbn [dotted_prefixes_below].
  pose proof (get_no_dot s Hs (S k)) as Hget.
  destruct (String.get (S k) s) as [ch|]; [|done].
  by destruct ch as [[] [] [] [] [] [] [] []].
Qed.

(** Above a name without a dot there is the root logger and nothing
    else; above the root there is nothing. *)
Lemma ancestors_no_dot n w :
  contains_dot n = false →
  ancestors (canon n) w = if is_root_name n then [] else [root w].
Proof.
  intros Hn. unfold ancestors, canon.
  destruct (is_root_name n) eqn:E; [done|].
  pose proof (canon_root n E) as Hroot. unfold canon in Hroot.
  rewrite E in Hroot. rewrite Hroot.
  by rewrite (dotted_prefixes_no_dot n Hn).
Qed.

(** X10.  The level of a Reporter may be any integer.  A non-zero level
    is the threshold itself.  Level 0 (NOTSET) is no threshold of its
    own: for a name without a dot the threshold is then the level of the
    root logger, WARNING in a fresh interpreter, and for the root logger
    itself there is none.  In each case [get_stats] after a sequence of
    leveled calls holds the numbers of calls whose rank reaches that
    threshold. *)
Theorem X10_counts_for_any_integer_level
    (w : World) (n : string) (lv : Z) (con : option nat) (st sp efh : bool)
    (fp : option string) (self : Reporter) (w1 : World) (cs : list Call) :
  wf w →
  (lv = 0 → contains_dot n = false) →
  __init__ n lv con st sp efh fp w = (Ok self, w1) →
  let threshold :=
    if lv =? 0 then (if is_root_name n then 0 else level (root w)) else lv in
  snapshot self (exec (submit_all self cs) w1)
  = Some (stats_dict (λ L, count_level threshold L cs)).
Proof.
  intros Hwf Hdot E threshold.
  destruct (init_fresh_logger _ _ _ _ _ _ _ _ _ _ Hwf E)
    as (Hlg & Hst & Hlv & Hfs & Hd).
  assert (Logger.getEffectiveLevel (logger self) w1 = threshold) as He.
  { unfold Logger.getEffectiveLevel, threshold. cbn [Logger.first_level].
    rewrite Hlv, Hlg. apply init_success in E as (_ & _ & ->).
    rewrite init_ancestors.
    destruct (Z.eqb_spec lv 0) as [->|Hne]; [|done].
    rewrite (ancestors_no_dot n w (Hdot eq_refl)).
    destruct (is_root_name n); [done|]. cbn [Logger.first_level].
    by destruct (Z.eqb_spec (level (root w)) 0) as [->|?]. }
  assert (∀ f, f ∈ filters (the_logger (canon n) w) → _stats f ≠ _stats self)
    as Hapart.
  { intros f Hf. apply (old_filters_allocated _ _ _ Hwf) in Hf. lia. }
  destruct (submit_all_holds_effective self _ threshold Hapart cs (λ _, 0) w1)
    as (_ & _ & Hfin); [by repeat split|].
  rewrite snapshot_stats. unfold stats_of. rewrite Hfin. cbn [default].
  f_equal. apply stats_dict_ext. intros L. by rewrite tally_count.
Qed.

Lemma X10_witness :
  let build := __init__ "app" NOTSET None true false false None in
  let self := init_self "app" None initial_world in
  let calls :=
    [ {| call_level := LDebug; call_message := "d"; call_time := "t" |};
      {| call_level := LInfo; call_message := "i"; call_time := "t" |};
      {| call_level := LWarning; call_message := "w"; call_time := "t" |};
      {| call_level := LError; call_message := "e"; call_time := "t" |} ] in
  contains_dot "app" = false
  ∧ snapshot self (exec (submit_all self calls) (exec build initial_world))
    = Some [("debug", 0); ("info", 0); ("warning", 1); ("error", 1);
            ("critical", 0)].
Proof.
  intros build self calls. split; [reflexivity|].
  exact (X10_counts_for_any_integer_level initial_world "app" NOTSET None
           true false false None self (exec build initial_world) calls
           wf_initial_world (λ _, eq_refl) eq_refl).
Defined.

(** ** The summary table *)



(** ** Reporters on one logger *)

(** X13.  The leveled methods of a Reporter use nothing of it but its
    logger: two Reporters constructed under names that select the same
    logger (the same name, or the empty name and "root") are
    interchangeable for leveled calls, in every world: the same call
    through either has the same outcome and leaves the same world. *)
Theorem X13_same_logger_same_calls
    (wa wb : World) (n1 n2 : string) (lv1 lv2 : Z) (con1 con2 : option nat)
    (st1 sp1 efh1 st2 sp2 efh2 : bool) (fp1 fp2 : option string)
    (r1 r2 : Reporter) (wa' wb' : World) (c : Call) (w : World) :
  __init__ n1 lv1 con1 st1 sp1 efh1 fp1 wa = (Ok r1, wa') →
  __init__ n2 lv2 con2 st2 sp2 efh2 fp2 wb = (Ok r2, wb') →
  canon n1 = canon n2 →
  submit r1 c w = submit r2 c w.
Proof.
  intros E1 E2 Hsame.
  apply init_success in E1 as (_ & -> & _).
  apply init_success in E2 as (_ & -> & _).
  rewrite !submit_log. cbn [logger init_self]. by rewrite Hsame.
Qed.

Lemma X13_witness :
  let w0 := initial_world in
  let w1 := exec (__init__ "" DEBUG (Some 1%nat) true false false None) w0 in
  let w2 := exec (__init__ "root" ERROR (Some 2%nat) true false false None) w1 in
  let r1 := init_self "" (Some 1%nat) w0 in
  let r2 := init_self "root" (Some 2%nat) w1 in
  let c := {| call_level := LCritical; call_message := "m"; call_time := "t" |} in
  canon "" = canon "root"
  ∧ submit r1 c w2 = submit r2 c w2
  ∧ out (exec (submit r1 c) w2)
    = [ELog 2 {| rec_name := "root"; levelno := CRITICAL;
                 levelname := "CRITICAL"; message := "m"; asctime := "t" |}].
Proof.
  intros w0 w1 w2 r1 r2 c.
  assert (__init__ "" DEBUG (Some 1%nat) true false false None w0 = (Ok r1, w1))
    as E1 by (vm_compute; reflexivity).
  assert (__init__ "root" ERROR (Some 2%nat) true false false None w1
          = (Ok r2, w2)) as E2 by (vm_compute; reflexivity).
  split; [reflexivity|].
  split; [|vm_compute; reflexivity].
  exact (X13_same_logger_same_calls w0 w1 "" "root" DEBUG ERROR (Some 1%nat)
           (Some 2%nat) true false false true false false None None
           r1 r2 w1 w2 c w2 E1 E2 eq_refl).
Defined.
